(** * The registry updater of dragon-registry (scripts/update_registry.go)

    A shallow embedding of the Go program that reconciles [registry.json]
    with the assets of one tagged release, and the properties its
    specification states about it.

    Go strings and byte slices are byte sequences: both are [string] here
    (a list of 8-bit [ascii]).  A Go slice that may be [nil] is a
    [slice A]: [None] is the nil slice, [Some l] a non-nil slice holding
    [l].  The outside world (environment, file system, network, the YAML
    and JSON decoders of the libraries) is a record of oracles the program
    is run against.  A call that can panic gives an [outcome]. *)

From Stdlib Require Import Ascii.
From stdpp Require Import base list strings.

Local Open Scope string_scope.
Local Open Scope list_scope.
Local Open Scope nat_scope.

(** ** Go strings *)

(** [strings.HasPrefix]:
    [len(s) >= len(prefix) && s[:len(prefix)] == prefix]. *)
Definition HasPrefix (s prefix : string) : bool :=
  (String.length prefix <=? String.length s)%nat
  && bool_decide (String.substring 0 (String.length prefix) s = prefix).

(** [strings.HasSuffix]:
    [len(s) >= len(suffix) && s[len(s)-len(suffix):] == suffix]. *)
Definition HasSuffix (s suffix : string) : bool :=
  (String.length suffix <=? String.length s)%nat
  && bool_decide
       (String.substring (String.length s - String.length suffix)
          (String.length suffix) s = suffix).

(** [strings.TrimPrefix]: [s[len(prefix):]] when [s] has the prefix,
    [s] itself otherwise. *)
Definition TrimPrefix (s prefix : string) : string :=
  if HasPrefix s prefix
  then String.substring (String.length prefix)
         (String.length s - String.length prefix) s
  else s.

(** [strings.TrimSuffix]: [s[:len(s)-len(suffix)]] when [s] has the
    suffix, [s] itself otherwise. *)
Definition TrimSuffix (s suffix : string) : string :=
  if HasSuffix s suffix
  then String.substring 0 (String.length s - String.length suffix) s
  else s.

(** ** Go slices *)

Definition slice (A : Type) : Type := option (list A).

(** The elements of a slice; the nil slice has none. *)
Definition elems {A} (s : slice A) : list A := default [] s.

(** ** Data model *)

Module Blueprint.
Record t : Type := mk {
  Name : string;
  Version : string;
  Repo : string;
  Path : string;
  DownloadURL : string;
  Description : string;
  Tags : slice string
}.
End Blueprint.

Module Database.
Record t : Type := mk { Blueprints : slice Blueprint.t }.
End Database.

Module Asset.
Record t : Type := mk { Name : string; BrowserDownloadURL : string }.
End Asset.

Module ghRelease.
Record t : Type := mk { TagName : string; Assets : slice Asset.t }.
End ghRelease.

Module bpManifest.
Record t : Type := mk {
  Name : string;
  Version : string;
  Description : string;
  Tags : slice string
}.
(** [var man bpManifest]: the zero value. *)
Definition zero : t := mk "" "" "" None.
End bpManifest.

#[global] Instance slice_eq_dec {A} `{EqDecision A} : EqDecision (slice A).
Proof. unfold slice. apply _. Defined.

#[global] Instance Blueprint_eq_dec : EqDecision Blueprint.t.
Proof. solve_decision. Defined.

#[global] Instance bpManifest_eq_dec : EqDecision bpManifest.t.
Proof. solve_decision. Defined.

(** ** Upsert (main, lines 168-179)

    The loop [for i := range db.Blueprints] stops at the first index whose
    entry has the name of [entry] and overwrites that element; when the
    loop ends with [found] still false the entry is appended. *)
Definition upsert (bs : list Blueprint.t) (entry : Blueprint.t)
  : list Blueprint.t :=
  match list_find (λ b, Blueprint.Name b = Blueprint.Name entry) bs with
  | Some (i, _) => <[i := entry]> bs
  | None => bs ++ [entry]
  end.

(** ** Go's [path] package

    [path.Clean] works on the slash-separated elements of a path: empty
    elements and [.] are dropped, [..] removes the element before it (at
    the start of a rooted path it is dropped, at the start of a relative
    one it is kept), and the empty result is [.]. *)

Fixpoint split_slash (s : string) : list string :=
  match s with
  | EmptyString => [""]
  | String c s' =>
      if Ascii.eqb c "/"%char then "" :: split_slash s'
      else match split_slash s' with
           | seg :: rest => String c seg :: rest
           | [] => [String c ""]
           end
  end.

(** [strings.Join(elems, sep)]. *)
Fixpoint strings_Join (elems : list string) (sep : string) : string :=
  match elems with
  | [] => ""
  | [e] => e
  | e :: rest => e +:+ sep +:+ strings_Join rest sep
  end.

(** One element of the path read by [Clean]; [out] holds the elements kept
    so far, last one first. *)
Definition clean_step (rooted : bool) (out : list string) (seg : string)
  : list string :=
  if bool_decide (seg = "") || bool_decide (seg = ".") then out
  else if bool_decide (seg = "..") then
    match out with
    | top :: rest =>
        if bool_decide (top = "..") then ".." :: out else rest
    | [] => if rooted then [] else [".."]
    end
  else seg :: out.

Definition path_Clean (p : string) : string :=
  match p with
  | EmptyString => "."
  | String c _ =>
      let rooted := Ascii.eqb c "/"%char in
      let out := rev (foldl (clean_step rooted) [] (split_slash p)) in
      if rooted then "/" +:+ strings_Join out "/"
      else match out with
           | [] => "."
           | _ => strings_Join out "/"
           end
  end.

(** [path.Join]: the elements from the first non-empty one on, joined with
    slashes and cleaned; the empty string when every element is empty. *)
Fixpoint path_Join (elem : list string) : string :=
  match elem with
  | [] => ""
  | e :: rest =>
      if bool_decide (e = "") then path_Join rest
      else path_Clean (strings_Join elem "/")
  end.

(** ** Errors and the outside world *)

Inductive error : Type :=
| ErrNotExist (path : string)
| ErrIO (msg : string)
| ErrTransport (msg : string)
| ErrStatus (url : string) (code : Z) (body : string)
| ErrDecode (msg : string).

(** [errors.Is(err, os.ErrNotExist)]. *)
Definition is_not_exist (err : error) : bool :=
  match err with ErrNotExist _ => true | _ => false end.

Module Request.
Record t : Type := mk {
  Method : string;
  URL : string;
  Header : list (string * string)
}.
End Request.

(** An HTTP response: its status code and what [io.ReadAll] makes of its
    body (the bytes read, and the error that ended the read, if any). *)
Module Response.
Record t : Type := mk { StatusCode : Z; Body : string * option error }.
End Response.

(** What a call gives: a value, or a panic, which ends the run. *)
Inductive outcome (A : Type) : Type :=
| Ret (a : A)
| Panic.

Arguments Ret {A} a.
Arguments Panic {A}.

(** The services the program calls.  [NewRequest_ok url] tells whether
    [http.NewRequestWithContext] builds a [GET] request for the URL: it
    does not, and returns a nil request with an error, when the URL does
    not parse.  The two [json.Unmarshal] oracles and [yaml_Unmarshal] take
    the bytes and the value the pointer argument holds, and return the
    value it holds afterwards with the error; [json_quote] is the string
    literal [encoding/json] writes for a Go string; [Now] is
    [time.Now().Format(time.RFC3339)]. *)
Record World : Type := {
  Getenv : string → string;
  ReadFile : string → string + error;
  WriteFile : string → string → option error;
  NewRequest_ok : string → bool;
  Do : Request.t → Response.t + error;
  json_Unmarshal_Database :
    string → Database.t → Database.t * option error;
  json_Unmarshal_ghRelease :
    string → ghRelease.t → ghRelease.t * option error;
  json_quote : string → string;
  yaml_Unmarshal : string → bpManifest.t → bpManifest.t * option error;
  Now : string
}.

(** ** loadDB (lines 42-59) *)

Definition loadDB (w : World) (p : string) : Database.t * option error :=
  let db := Database.mk None in
  match ReadFile w p with
  | inr err =>
      if is_not_exist err then (Database.mk (Some []), None)
      else (db, Some err)
  | inl b =>
      match json_Unmarshal_Database w b db with
      | (db, Some err) => (db, Some err)
      | (db, None) =>
          match Database.Blueprints db with
          | None => (Database.mk (Some []), None)
          | Some _ => (db, None)
          end
      end
  end.

(** ** What [json.MarshalIndent] writes

    A struct is written as an object whose members are its fields in
    declaration order under their [json] tag, a string as its literal, a
    nil slice as [null] and a non-nil slice as an array.  With prefix
    [""] and indent ["  "] every member and element starts a line of its
    own, one indent deeper than the bracket that holds it; an array or
    object without content is written closed on the spot. *)

#[local] Set Warnings "-register-all".

Inductive JSON : Type :=
| JNull
| JString (s : string)
| JArray (items : list JSON)
| JObject (members : list (string * JSON)).

Definition nl : string := String "010" "".
Definition dquote : string := String "034" "".

(** [depth] copies of the indent. *)
Fixpoint pad (depth : nat) : string :=
  match depth with
  | O => ""
  | S d => "  " +:+ pad d
  end.

Section Indent.
Variable quote : string → string.

Fixpoint indent (depth : nat) (j : JSON) : string :=
  match j with
  | JNull => "null"
  | JString s => quote s
  | JArray [] => "[]"
  | JArray (x :: xs) =>
      "[" +:+ nl +:+ pad (S depth) +:+ indent (S depth) x
      +:+ (fix items (l : list JSON) : string :=
             match l with
             | [] => ""
             | y :: l' =>
                 "," +:+ nl +:+ pad (S depth) +:+ indent (S depth) y
                 +:+ items l'
             end) xs
      +:+ nl +:+ pad depth +:+ "]"
  | JObject [] => "{}"
  | JObject ((k, x) :: xs) =>
      "{" +:+ nl +:+ pad (S depth) +:+ dquote +:+ k +:+ dquote +:+ ": "
      +:+ indent (S depth) x
      +:+ (fix members (l : list (string * JSON)) : string :=
             match l with
             | [] => ""
             | (k', y) :: l' =>
                 "," +:+ nl +:+ pad (S depth) +:+ dquote +:+ k' +:+ dquote
                 +:+ ": " +:+ indent (S depth) y +:+ members l'
             end) xs
      +:+ nl +:+ pad depth +:+ "}"
  end.

End Indent.

Definition json_strings (s : slice string) : JSON :=
  match s with
  | None => JNull
  | Some l => JArray (JString <$> l)
  end.

Definition json_Blueprint (b : Blueprint.t) : JSON :=
  JObject [("name", JString (Blueprint.Name b));
           ("version", JString (Blueprint.Version b));
           ("repo", JString (Blueprint.Repo b));
           ("path", JString (Blueprint.Path b));
           ("download_url", JString (Blueprint.DownloadURL b));
           ("description", JString (Blueprint.Description b));
           ("tags", json_strings (Blueprint.Tags b))].

Definition json_Database (db : Database.t) : JSON :=
  JObject [("blueprints",
            match Database.Blueprints db with
            | None => JNull
            | Some l => JArray (json_Blueprint <$> l)
            end)].

(** [json.MarshalIndent(db, "", "  ")]; it has no error to report on a
    value made of strings and slices. *)
Definition MarshalIndent (w : World) (db : Database.t) : string :=
  indent (json_quote w) 0 (json_Database db).

(** ** saveDB (lines 61-70)

    The result is the file write that was asked for, with the error of
    [os.WriteFile]. *)
Definition saveDB (w : World) (p : string) (db : Database.t)
  : (string * string) * option error :=
  let db :=
    match Database.Blueprints db with
    | None => Database.mk (Some [])
    | Some _ => db
    end in
  let b := MarshalIndent w db in
  ((p, b), WriteFile w p b).

(** ** httpGet (lines 87-103)

    Line 88 drops the error of [http.NewRequestWithContext].  When the
    URL does not parse the request is nil, and setting a header on it
    (line 90 with a token, line 92 without) panics before anything is
    sent. *)
Definition httpGet (w : World) (url : string)
  : outcome (string * option error) :=
  if negb (NewRequest_ok w url) then Panic
  else
    let tok := Getenv w "GITHUB_TOKEN" in
    let auth :=
      if bool_decide (tok = "") then []
      else [("Authorization", "Bearer " +:+ tok)] in
    let req :=
      Request.mk "GET" url
        (auth ++ [("Accept", "application/vnd.github+json")]) in
    match Do w req with
    | inr err => Ret ("", Some err)
    | inl resp =>
        if negb (Z.quot (Response.StatusCode resp) 100 =? 2)%Z then
          Ret ("", Some (ErrStatus url (Response.StatusCode resp)
                           (fst (Response.Body resp))))
        else Ret (Response.Body resp)
    end.

(** ** main (lines 105-188), piece by piece *)

(** Line 121. *)
Definition relURL (repo tag : string) : string :=
  "https://api.github.com/repos/" +:+ repo +:+ "/releases/tags/" +:+ tag.

(** Line 138: the blueprint identifier of an archive asset. *)
Definition blueprintID (a : Asset.t) : string :=
  TrimSuffix (Asset.Name a) ".zip".

(** Lines 140-141: four [%s] verbs, the last one given [""]. *)
Definition manifestURL (repo tag name : string) : string :=
  "https://raw.githubusercontent.com/" +:+ repo +:+ "/" +:+ tag +:+ "/"
  +:+ path_Join ["blueprints"; name; "manifest.yaml"] +:+ "/" +:+ "".

(** Lines 142-146: the manifest as it stands before the fallbacks. *)
Definition resolveManifest (w : World) (repo tag name : string)
  : outcome bpManifest.t :=
  match httpGet w (manifestURL repo tag name) with
  | Panic => Panic
  | Ret (mb, err) =>
      let man := bpManifest.zero in
      match err with
      | None => Ret (fst (yaml_Unmarshal w mb man))
      | Some _ => Ret man
      end
  end.

(** Lines 147-156. *)
Definition fallbacks (tag name : string) (man : bpManifest.t)
  : bpManifest.t :=
  let n :=
    if bool_decide (bpManifest.Name man = "") then name
    else bpManifest.Name man in
  let v :=
    if bool_decide (bpManifest.Version man = "") then TrimPrefix tag "v"
    else bpManifest.Version man in
  let d :=
    if bool_decide (bpManifest.Description man = "")
    then name +:+ " blueprint"
    else bpManifest.Description man in
  bpManifest.mk n v d (bpManifest.Tags man).

(** Lines 158-166. *)
Definition mkEntry (repo name : string) (a : Asset.t) (man : bpManifest.t)
  : Blueprint.t :=
  Blueprint.mk (bpManifest.Name man) (bpManifest.Version man)
    ("github.com/" +:+ repo) (path_Join ["blueprints"; name])
    (Asset.BrowserDownloadURL a) (bpManifest.Description man)
    (bpManifest.Tags man).

(** Lines 135-166: the entry an asset gives, [None] when the loop
    [continue]s past it. *)
Definition assetEntry (w : World) (repo tag : string) (a : Asset.t)
  : outcome (option Blueprint.t) :=
  if negb (HasSuffix (Asset.Name a) ".zip") then Ret None
  else
    let name := blueprintID a in
    match resolveManifest w repo tag name with
    | Panic => Panic
    | Ret man =>
        let man := fallbacks tag name man in
        Ret (Some (mkEntry repo name a man))
    end.

(** One turn of the loop over the assets. *)
Definition reconcileAsset (w : World) (repo tag : string)
    (db : Database.t) (a : Asset.t) : outcome Database.t :=
  match assetEntry w repo tag a with
  | Panic => Panic
  | Ret None => Ret db
  | Ret (Some entry) =>
      Ret (Database.mk
             (Some (upsert (elems (Database.Blueprints db)) entry)))
  end.

(** The turns of the loop over a list of assets; a panic ends them. *)
Fixpoint reconcileAssets (w : World) (repo tag : string)
    (db : Database.t) (assets : list Asset.t) : outcome Database.t :=
  match assets with
  | [] => Ret db
  | a :: rest =>
      match reconcileAsset w repo tag db a with
      | Panic => Panic
      | Ret db => reconcileAssets w repo tag db rest
      end
  end.

(** Lines 134-180. *)
Definition reconcile (w : World) (repo tag : string) (db : Database.t)
    (assets : slice Asset.t) : outcome Database.t :=
  reconcileAssets w repo tag db (elems assets).

(** What a run prints: one line, the first five on the error channel and
    [Updated] on the standard output, or the trace of a panic. *)
Inductive Line : Type :=
| MissingEnv
| LoadRegistry (err : error)
| Release (err : error)
| DecodeRelease (err : error)
| SaveRegistry (err : error)
| Updated (tag now : string) (entries : nat)
| Panicked.

Module Run.
Record t : Type := mk {
  status : Z;
  line : Line;
  written : option (string * string)
}.
End Run.

(** A panic ends the process with status 2, and nothing is written. *)
Definition main (w : World) : Run.t :=
  let tag := Getenv w "TAG" in
  let repo := Getenv w "BLUEPRINTS_REPO" in
  if bool_decide (tag = "") || bool_decide (repo = "") then
    Run.mk 1 MissingEnv None
  else
    match loadDB w "registry.json" with
    | (_, Some err) => Run.mk 1 (LoadRegistry err) None
    | (db, None) =>
        match httpGet w (relURL repo tag) with
        | Panic => Run.mk 2 Panicked None
        | Ret (_, Some err) => Run.mk 1 (Release err) None
        | Ret (rb, None) =>
            match json_Unmarshal_ghRelease w rb (ghRelease.mk "" None) with
            | (_, Some err) => Run.mk 1 (DecodeRelease err) None
            | (rel, None) =>
                match reconcile w repo tag db (ghRelease.Assets rel) with
                | Panic => Run.mk 2 Panicked None
                | Ret db =>
                    match saveDB w "registry.json" db with
                    | (wr, Some err) =>
                        Run.mk 1 (SaveRegistry err) (Some wr)
                    | (wr, None) =>
                        Run.mk 0
                          (Updated tag (Now w)
                             (length (elems (Database.Blueprints db))))
                          (Some wr)
                    end
                end
            end
        end
    end.

(** ** Example worlds

    One release, [v1.2.3] of [o/r], with the assets [foo.zip] and
    [foo.tar].  The file system has no [registry.json], a [broken.json]
    that does not decode and an [empty.json] that decodes to a database
    without a [blueprints] member. *)

Definition example_release : ghRelease.t :=
  ghRelease.mk "v1.2.3"
    (Some [Asset.mk "foo.zip" "U1"; Asset.mk "foo.tar" "U2"]).

Definition example_files (p : string) : string + error :=
  if bool_decide (p = "broken.json") then inl "{"
  else if bool_decide (p = "empty.json") then inl "{}"
  else inr (ErrNotExist p).

Definition example_env (k : string) : string :=
  if bool_decide (k = "TAG") then "v1.2.3"
  else if bool_decide (k = "BLUEPRINTS_REPO") then "o/r"
  else "".

Definition example_decode_Database (b : string) (db : Database.t)
  : Database.t * option error :=
  if bool_decide (b = "{}") then (db, None)
  else (db, Some (ErrDecode "unexpected end of JSON input")).

(** Of what [url.Parse] refuses, the example worlds know the percent
    sign that two hexadecimal digits do not follow. *)
Definition is_hex (c : ascii) : bool :=
  let n := nat_of_ascii c in
  ((48 <=? n) && (n <=? 57)) || ((65 <=? n) && (n <=? 70))
  || ((97 <=? n) && (n <=? 102)).

Fixpoint valid_escapes (s : string) : bool :=
  match s with
  | EmptyString => true
  | String c s' =>
      if Ascii.eqb c "%"%char then
        match s' with
        | String h1 (String h2 _) =>
            is_hex h1 && is_hex h2 && valid_escapes s'
        | _ => false
        end
      else valid_escapes s'
  end.

(** The release lookup answers; every other URL is not found. *)
Definition example_net (req : Request.t) : Response.t + error :=
  if bool_decide (Request.URL req = relURL "o/r" "v1.2.3")
  then inl (Response.mk 200 ("release v1.2.3", None))
  else inl (Response.mk 404 ("404: Not Found", None)).

Definition example_world : World := {|
  Getenv := example_env;
  ReadFile := example_files;
  WriteFile := λ _ _, None;
  NewRequest_ok := valid_escapes;
  Do := example_net;
  json_Unmarshal_Database := example_decode_Database;
  json_Unmarshal_ghRelease := λ _ _, (example_release, None);
  json_quote := λ s, dquote +:+ s +:+ dquote;
  yaml_Unmarshal := λ _ man, (man, None);
  Now := "2025-01-01T00:00:00Z"
|}.

(** The same release in a repository whose manifest for [foo] gives a
    name and, for the version, a sequence where a string is due: the YAML
    decoder sets the name, reports the version as a type error and leaves
    the other fields as they were. *)
Definition ill_typed_manifest : string :=
  "name: bar" +:+ nl +:+ "version: [1, 2]" +:+ nl.

Definition ill_typed_net (req : Request.t) : Response.t + error :=
  if bool_decide (Request.URL req = manifestURL "o/r" "v1.2.3" "foo")
  then inl (Response.mk 200 (ill_typed_manifest, None))
  else example_net req.

Definition ill_typed_decode (b : string) (man : bpManifest.t)
  : bpManifest.t * option error :=
  if bool_decide (b = ill_typed_manifest)
  then (bpManifest.mk "bar" (bpManifest.Version man)
          (bpManifest.Description man) (bpManifest.Tags man),
        Some (ErrDecode "line 2: cannot unmarshal !!seq into string"))
  else (man, None).

Definition ill_typed_world : World := {|
  Getenv := example_env;
  ReadFile := example_files;
  WriteFile := λ _ _, None;
  NewRequest_ok := valid_escapes;
  Do := ill_typed_net;
  json_Unmarshal_Database := example_decode_Database;
  json_Unmarshal_ghRelease := λ _ _, (example_release, None);
  json_quote := λ s, dquote +:+ s +:+ dquote;
  yaml_Unmarshal := ill_typed_decode;
  Now := "2025-01-01T00:00:00Z"
|}.

(** A release one of whose archives has a percent sign in its name: the
    URL of its manifest, [.../blueprints/100%/manifest.yaml/], does not
    parse. *)
Definition percent_release : ghRelease.t :=
  ghRelease.mk "v1.2.3"
    (Some [Asset.mk "100%.zip" "U0"; Asset.mk "foo.zip" "U1"]).

Definition percent_world : World := {|
  Getenv := example_env;
  ReadFile := example_files;
  WriteFile := λ _ _, None;
  NewRequest_ok := valid_escapes;
  Do := example_net;
  json_Unmarshal_Database := example_decode_Database;
  json_Unmarshal_ghRelease := λ _ _, (percent_release, None);
  json_quote := λ s, dquote +:+ s +:+ dquote;
  yaml_Unmarshal := λ _ man, (man, None);
  Now := "2025-01-01T00:00:00Z"
|}.

(** ** Vocabulary of the properties *)

(** The test the loop makes on each element. *)
Abbreviation named E := (λ b : Blueprint.t, Blueprint.Name b = Blueprint.Name E).

(** At most one entry for a name. *)
Definition unique_names (C : list Blueprint.t) : Prop :=
  NoDup (Blueprint.Name <$> C).

(** What the replacement of position [i] by [E] means. *)
Definition replaced_at (C : list Blueprint.t) (E : Blueprint.t) (i : nat)
  : Prop :=
  length (upsert C E) = length C
  ∧ upsert C E !! i = Some E
  ∧ ∀ j, j ≠ i → upsert C E !! j = C !! j.



(** The request for the manifest of every archive asset can be built. *)
Definition manifests_requestable (w : World) (repo tag : string)
    (assets : list Asset.t) : Prop :=
  ∀ a, a ∈ assets → HasSuffix (Asset.Name a) ".zip" = true →
       NewRequest_ok w (manifestURL repo tag (blueprintID a)) = true.

(** The last lines of an entry without tags, [depth] indents deep. *)
Definition null_tags_end (depth : nat) : string :=
  dquote +:+ "tags" +:+ dquote +:+ ": null" +:+ nl +:+ pad depth +:+ "}".

(** Lines 88-92: the request [httpGet] sends. *)
Definition httpRequest (w : World) (url : string) : Request.t :=
  let tok := Getenv w "GITHUB_TOKEN" in
  Request.mk "GET" url
    ((if bool_decide (tok = "") then []
      else [("Authorization", "Bearer " +:+ tok)])
     ++ [("Accept", "application/vnd.github+json")]).

(** The entry the loop of the upsert stops at for a name: the first one
    so named. *)
Definition lookupName (n : string) (C : list Blueprint.t)
  : option Blueprint.t :=
  snd <$> list_find (λ b, Blueprint.Name b = n) C.

(** The entries the archive assets of a release give, in their order
    (an asset on which the loop would panic gives none). *)
Definition assetEntries (w : World) (repo tag : string)
    (assets : slice Asset.t) : list Blueprint.t :=
  omap (λ a, match assetEntry w repo tag a with
             | Ret entry => entry
             | Panic => None
             end)
    (elems assets).

(** The last entry of a list that has a given name. *)
Definition lastNamed (n : string) (es : list Blueprint.t)
  : option Blueprint.t :=
  last (filter (λ e, Blueprint.Name e = n) es).

Fixpoint contains_slash (s : string) : bool :=
  match s with
  | EmptyString => false
  | String c s' => Ascii.eqb c "/"%char || contains_slash s'
  end.

(** An identifier that is one plain element of a path. *)
Definition plain_id (id : string) : Prop :=
  id ≠ "" ∧ id ≠ "." ∧ id ≠ ".." ∧ contains_slash id = false.

(** The first line and a half of every saved file. *)
Definition blueprints_open : string :=
  "{" +:+ nl +:+ "  " +:+ dquote +:+ "blueprints" +:+ dquote +:+ ": [".

(** * Properties *)

(** ** Strings: prefixes and suffixes *)

Lemma string_length_app (p q : string) :
  String.length (p +:+ q) = String.length p + String.length q.
Proof. induction p as [|c p IH]; simpl; [done | by rewrite IH]. Qed.

Lemma substring_0_0 (s : string) : String.substring 0 0 s = "".
Proof. by destruct s. Qed.

Lemma substring_app_l (p q : string) :
  String.substring 0 (String.length p) (p +:+ q) = p.
Proof.
  induction p as [|c p IH]; simpl.
  - apply substring_0_0.
  - by rewrite IH.
Qed.

Lemma substring_whole (q : string) :
  String.substring 0 (String.length q) q = q.
Proof. induction q as [|c q IH]; simpl; [done | by rewrite IH]. Qed.

Lemma substring_app_r (p q : string) :
  String.substring (String.length p) (String.length q) (p +:+ q) = q.
Proof.
  induction p as [|c p IH]; simpl; [apply substring_whole | apply IH].
Qed.

Lemma substring_split (s : string) (n : nat) :
  n ≤ String.length s →
  s = String.substring 0 n s
      +:+ String.substring n (String.length s - n) s.
Proof.
  revert n. induction s as [|c s IH]; intros n Hn; simpl in *.
  - by destruct n.
  - destruct n as [|n]; simpl.
    + by rewrite substring_whole.
    + change (String c s
              = String c (String.substring 0 n s
                          +:+ String.substring n (String.length s - n) s)).
      f_equal. apply IH. lia.
Qed.

Lemma HasSuffix_app (p suffix : string) : HasSuffix (p +:+ suffix) suffix = true.
Proof.
  unfold HasSuffix. rewrite string_length_app.
  apply andb_true_iff; split.
  - apply Nat.leb_le. lia.
  - apply bool_decide_eq_true.
    replace (String.length p + String.length suffix - String.length suffix)
      with (String.length p) by lia.
    apply substring_app_r.
Qed.

Lemma HasSuffix_inv (s suffix : string) :
  HasSuffix s suffix = true →
  s = String.substring 0 (String.length s - String.length suffix) s
      +:+ suffix.
Proof.
  unfold HasSuffix. intros [Hlen Heq%bool_decide_eq_true]%andb_true_iff.
  apply Nat.leb_le in Hlen.
  rewrite (substring_split s (String.length s - String.length suffix))
    at 1 by lia.
  f_equal.
  replace (String.length s - (String.length s - String.length suffix))
    with (String.length suffix) by lia.
  done.
Qed.

Lemma HasSuffix_spec (s suffix : string) :
  HasSuffix s suffix = true ↔ ∃ p, s = p +:+ suffix.
Proof.
  split.
  - intros H. eexists. by apply HasSuffix_inv.
  - intros [p ->]. apply HasSuffix_app.
Qed.

Lemma TrimSuffix_app (p suffix : string) : TrimSuffix (p +:+ suffix) suffix = p.
Proof.
  unfold TrimSuffix. rewrite HasSuffix_app, string_length_app.
  replace (String.length p + String.length suffix - String.length suffix)
    with (String.length p) by lia.
  apply substring_app_l.
Qed.

Lemma HasPrefix_app (prefix q : string) : HasPrefix (prefix +:+ q) prefix = true.
Proof.
  unfold HasPrefix. rewrite string_length_app.
  apply andb_true_iff; split.
  - apply Nat.leb_le. lia.
  - apply bool_decide_eq_true, substring_app_l.
Qed.

Lemma TrimPrefix_app (prefix q : string) : TrimPrefix (prefix +:+ q) prefix = q.
Proof.
  unfold TrimPrefix. rewrite HasPrefix_app, string_length_app.
  replace (String.length prefix + String.length q - String.length prefix)
    with (String.length q) by lia.
  apply substring_app_r.
Qed.

(** ** Go's [path] on the examples of its documentation *)

Example path_Clean_examples :
  path_Clean <$> ["a/c"; "a//c"; "a/c/."; "a/c/b/.."; "/../a/c";
                  "/../a/b/../././/c"; ""]
  = ["a/c"; "a/c"; "a/c"; "a/c"; "/a/c"; "/a/c"; "."].
Proof. reflexivity. Qed.

Example path_Join_examples :
  path_Join <$> [["a"; "b"; "c"]; ["a"; "b/c"]; ["a/b"; "c"];
                 ["a/b"; "../../../xyz"]; ["a/b"; "/c"]; [""; ""];
                 ["a"; ""]; [""; "a"]]
  = ["a/b/c"; "a/b/c"; "a/b/c"; "../xyz"; "a/b/c"; ""; "a"; "a"].
Proof. reflexivity. Qed.

(** ** Upsert *)

Lemma upsert_found (C : list Blueprint.t) (E b : Blueprint.t) (i : nat) :
  list_find (named E) C = Some (i, b) → upsert C E = <[i := E]> C.
Proof. unfold upsert. by intros ->. Qed.

Lemma upsert_not_found (C : list Blueprint.t) (E : Blueprint.t) :
  list_find (named E) C = None → upsert C E = C ++ [E].
Proof. unfold upsert. by intros ->. Qed.

(** After the upsert the first entry named like [E] is [E] itself. *)
Lemma upsert_first_match (C : list Blueprint.t) (E : Blueprint.t) :
  ∃ i, list_find (named E) (upsert C E) = Some (i, E).
Proof.
  destruct (list_find (named E) C) as [[i b]|] eqn:Hfind.
  - rewrite (upsert_found _ _ _ _ Hfind).
    apply list_find_Some in Hfind as (Hi & _ & Hbefore).
    exists i. apply list_find_Some. split_and!; [|done|].
    + apply list_lookup_insert_eq. by eapply lookup_lt_Some.
    + intros j y Hj Hlt. rewrite list_lookup_insert_ne in Hj by lia. eauto.
  - rewrite (upsert_not_found _ _ Hfind).
    apply list_find_None in Hfind.
    exists (length C). apply list_find_Some. split_and!; [|done|].
    + by rewrite lookup_app_r, Nat.sub_diag by lia.
    + intros j y Hj Hlt. rewrite lookup_app_l in Hj by done.
      rewrite Forall_forall in Hfind. apply Hfind.
      apply list_elem_of_lookup. eauto.
Qed.

(** In a catalog with unique names an entry named like [E] is the first
    one so named. *)
Lemma unique_names_first (C : list Blueprint.t) (E e0 : Blueprint.t) (i : nat) :
  unique_names C → C !! i = Some e0 →
  Blueprint.Name e0 = Blueprint.Name E →
  ∀ j b, j < i → C !! j = Some b → Blueprint.Name b ≠ Blueprint.Name E.
Proof.
  intros Hnd Hi Hname j b Hlt Hj Hb.
  assert (i = j); [|lia].
  eapply NoDup_lookup; [exact Hnd| |]; rewrite list_lookup_fmap.
  - by rewrite Hi.
  - rewrite Hj. simpl. congruence.
Qed.

(** The loop overwrites the entry it stops at, and nothing else. *)
Lemma upsert_found_replaced (C : list Blueprint.t) (E e0 : Blueprint.t)
    (i : nat) :
  list_find (named E) C = Some (i, e0) → replaced_at C E i.
Proof.
  intros Hfind. unfold replaced_at.
  rewrite (upsert_found _ _ _ _ Hfind).
  apply list_find_Some in Hfind as (Hi & _). split_and!.
  - apply length_insert.
  - apply list_lookup_insert_eq. by eapply lookup_lt_Some.
  - intros j Hne. by apply list_lookup_insert_ne.
Qed.

(** C1: when no entry of the catalog has the name of [E], the upsert
    appends [E]: the result is one longer, ends in [E], and every entry of
    the catalog is where it was. *)
Theorem upsert_absent_appends (C : list Blueprint.t) (E : Blueprint.t) :
  (∀ b, b ∈ C → Blueprint.Name b ≠ Blueprint.Name E) →
  upsert C E = C ++ [E]
  ∧ length (upsert C E) = length C + 1
  ∧ last (upsert C E) = Some E
  ∧ ∀ i, i < length C → upsert C E !! i = C !! i.
Proof.
  intros Habsent.
  assert (list_find (named E) C = None) as Hfind.
  { apply list_find_None, Forall_forall. intros b Hb.
    by apply Habsent. }
  rewrite (upsert_not_found _ _ Hfind). split_and!.
  - done.
  - rewrite length_app. simpl. lia.
  - apply last_snoc.
  - intros i Hi. by apply lookup_app_l.
Qed.

Lemma upsert_absent_appends_witness :
  let C := [Blueprint.mk "alpha" "0.9" "r" "p" "u" "d" None] in
  let E := Blueprint.mk "beta" "1.0" "r" "q" "v" "e" (Some ["x"]) in
  upsert C E = C ++ [E]
  ∧ length (upsert C E) = length C + 1
  ∧ last (upsert C E) = Some E
  ∧ ∀ i, i < length C → upsert C E !! i = C !! i.
Proof.
  intros C E. apply (upsert_absent_appends C E).
  intros b Hb. apply list_elem_of_singleton in Hb as ->. simpl. discriminate.
Defined.

(** The loop overwrites the first entry that has the name of [E],
    whether or not later entries share the name. *)
Lemma upsert_first_match_replaced (C : list Blueprint.t)
    (E e0 : Blueprint.t) (i : nat) :
  C !! i = Some e0 →
  Blueprint.Name e0 = Blueprint.Name E →
  (∀ j b, j < i → C !! j = Some b → Blueprint.Name b ≠ Blueprint.Name E) →
  replaced_at C E i.
Proof.
  intros Hi Hname Hfirst. apply (upsert_found_replaced C E e0).
  apply list_find_Some. split_and!; [done..|].
  intros j b Hj Hlt. by apply (Hfirst j b).
Qed.

(** C2: in a catalog (at most one entry for a name) that holds an entry
    with the name of [E] at position [i], the upsert gives a catalog of
    the same length in which position [i] holds exactly [E], every field
    and the tags included, and every other position is unchanged. *)
Theorem upsert_present_replaces (C : list Blueprint.t) (E e0 : Blueprint.t)
    (i : nat) :
  unique_names C →
  C !! i = Some e0 →
  Blueprint.Name e0 = Blueprint.Name E →
  length (upsert C E) = length C
  ∧ upsert C E !! i = Some E
  ∧ ∀ j, j ≠ i → upsert C E !! j = C !! j.
Proof.
  intros Hnd Hi Hname.
  assert (list_find (named E) C = Some (i, e0)) as Hfind.
  { apply list_find_Some. split_and!; [done..|].
    intros j b Hj Hlt.
    exact (unique_names_first C E e0 i Hnd Hi Hname j b Hlt Hj). }
  rewrite (upsert_found _ _ _ _ Hfind). split_and!.
  - apply length_insert.
  - apply list_lookup_insert_eq. by eapply lookup_lt_Some.
  - intros j Hne. by apply list_lookup_insert_ne.
Qed.

Lemma upsert_present_replaces_witness :
  let C := [Blueprint.mk "alpha" "0.9" "r" "p" "u" "d" (Some ["old"]);
            Blueprint.mk "beta" "0.1" "r" "q" "v" "e" None] in
  let E := Blueprint.mk "beta" "1.0" "r2" "q2" "v2" "e2" (Some ["new"]) in
  length (upsert C E) = length C
  ∧ upsert C E !! 1 = Some E
  ∧ ∀ j, j ≠ 1 → upsert C E !! j = C !! j.
Proof.
  intros C E.
  apply (upsert_present_replaces C E
           (Blueprint.mk "beta" "0.1" "r" "q" "v" "e" None) 1).
  - unfold unique_names.
    apply (bool_decide_unpack (NoDup (Blueprint.Name <$> C))).
    vm_compute. exact I.
  - reflexivity.
  - reflexivity.
Defined.

(** C3: the upsert is idempotent. *)
Theorem upsert_idempotent (C : list Blueprint.t) (E : Blueprint.t) :
  upsert (upsert C E) E = upsert C E.
Proof.
  destruct (upsert_first_match C E) as [i Hfind].
  rewrite (upsert_found _ _ _ _ Hfind).
  apply list_insert_id. by apply list_find_Some in Hfind as (? & _).
Qed.

(** C4: unique names are kept by the upsert; in particular the result
    holds the name of [E] at one position only. *)
Theorem upsert_unique_names (C : list Blueprint.t) (E : Blueprint.t) :
  unique_names C →
  unique_names (upsert C E)
  ∧ ∀ i j bi bj,
      upsert C E !! i = Some bi → upsert C E !! j = Some bj →
      Blueprint.Name bi = Blueprint.Name E →
      Blueprint.Name bj = Blueprint.Name E → i = j.
Proof.
  intros Hnd.
  assert (unique_names (upsert C E)) as Hnd'.
  { unfold unique_names in *.
    destruct (list_find (named E) C) as [[i b]|] eqn:Hfind.
    - rewrite (upsert_found _ _ _ _ Hfind), list_fmap_insert.
      apply list_find_Some in Hfind as (Hi & Hname & _).
      rewrite list_insert_id; [done|].
      rewrite list_lookup_fmap, Hi. simpl. by rewrite Hname.
    - rewrite (upsert_not_found _ _ Hfind), fmap_app.
      apply list_find_None in Hfind. rewrite Forall_forall in Hfind.
      apply NoDup_app. split_and!; [done| |apply NoDup_singleton].
      intros n Hn Hn'. apply list_elem_of_singleton in Hn' as ->.
      apply list_elem_of_fmap in Hn as (b & Hname & Hb).
      by apply (Hfind b). }
  split; [done|]. intros i j bi bj Hi Hj Hni Hnj.
  eapply (NoDup_lookup _ i j (Blueprint.Name E) Hnd');
    rewrite list_lookup_fmap.
  - rewrite Hi. simpl. by rewrite Hni.
  - rewrite Hj. simpl. by rewrite Hnj.
Qed.

Lemma upsert_unique_names_witness :
  let C := [Blueprint.mk "alpha" "0.9" "r" "p" "u" "d" None;
            Blueprint.mk "beta" "0.1" "r" "q" "v" "e" None] in
  let E := Blueprint.mk "alpha" "1.0" "r" "p" "u2" "d" None in
  unique_names (upsert C E)
  ∧ ∀ i j bi bj,
      upsert C E !! i = Some bi → upsert C E !! j = Some bj →
      Blueprint.Name bi = Blueprint.Name E →
      Blueprint.Name bj = Blueprint.Name E → i = j.
Proof.
  intros C E. apply (upsert_unique_names C E).
  unfold unique_names.
  apply (bool_decide_unpack (NoDup (Blueprint.Name <$> C))).
  vm_compute. exact I.
Defined.

(** ** Panics and completed calls *)

Lemma httpGet_Panic (w : World) (url : string) :
  httpGet w url = Panic ↔ NewRequest_ok w url = false.
Proof.
  unfold httpGet. destruct (NewRequest_ok w url); simpl; [|done].
  split; [|done].
  destruct (Do w _) as [resp|err]; [|done].
  by destruct (negb _).
Qed.

Lemma resolveManifest_Panic (w : World) (repo tag name : string) :
  resolveManifest w repo tag name = Panic
  ↔ NewRequest_ok w (manifestURL repo tag name) = false.
Proof.
  rewrite <- httpGet_Panic. unfold resolveManifest.
  by destruct (httpGet w (manifestURL repo tag name)) as [[mb [e|]]|].
Qed.


Lemma assetEntry_zip (w : World) (repo tag : string) (a : Asset.t) :
  HasSuffix (Asset.Name a) ".zip" = true →
  assetEntry w repo tag a
  = match resolveManifest w repo tag (blueprintID a) with
    | Panic => Panic
    | Ret man =>
        Ret (Some (mkEntry repo (blueprintID a) a
                     (fallbacks tag (blueprintID a) man)))
    end.
Proof. intros Hzip. unfold assetEntry. by rewrite Hzip. Qed.

Lemma assetEntry_not_zip (w : World) (repo tag : string) (a : Asset.t) :
  HasSuffix (Asset.Name a) ".zip" = false → assetEntry w repo tag a = Ret None.
Proof. intros Hzip. unfold assetEntry. by rewrite Hzip. Qed.

Lemma assetEntry_Some_inv (w : World) (repo tag : string) (a : Asset.t)
    (e : Blueprint.t) :
  assetEntry w repo tag a = Ret (Some e) →
  HasSuffix (Asset.Name a) ".zip" = true
  ∧ ∃ man,
      resolveManifest w repo tag (blueprintID a) = Ret man
      ∧ e = mkEntry repo (blueprintID a) a
              (fallbacks tag (blueprintID a) man).
Proof.
  destruct (HasSuffix (Asset.Name a) ".zip") eqn:Hzip.
  - rewrite (assetEntry_zip _ _ _ _ Hzip).
    destruct (resolveManifest w repo tag (blueprintID a)) as [man|];
      [|done].
    intros [= <-]. eauto.
  - by rewrite (assetEntry_not_zip _ _ _ _ Hzip).
Qed.

Lemma assetEntry_Panic (w : World) (repo tag : string) (a : Asset.t) :
  assetEntry w repo tag a = Panic
  ↔ HasSuffix (Asset.Name a) ".zip" = true
    ∧ NewRequest_ok w (manifestURL repo tag (blueprintID a)) = false.
Proof.
  rewrite <- resolveManifest_Panic.
  destruct (HasSuffix (Asset.Name a) ".zip") eqn:Hzip.
  - rewrite (assetEntry_zip _ _ _ _ Hzip).
    destruct (resolveManifest w repo tag (blueprintID a));
      split; [done | by intros [_ ?] | done | done].
  - rewrite (assetEntry_not_zip _ _ _ _ Hzip).
    split; [done | by intros [? _]].
Qed.

(** A loop that completes has upserted the entries of the archive
    assets, in the order of the asset list, and met no panic. *)
Lemma reconcileAssets_Ret (w : World) (repo tag : string)
    (assets : list Asset.t) (db db' : Database.t) :
  reconcileAssets w repo tag db assets = Ret db' →
  db' = foldl (λ db entry,
                 Database.mk
                   (Some (upsert (elems (Database.Blueprints db)) entry)))
          db (omap (λ a, match assetEntry w repo tag a with
                         | Ret entry => entry
                         | Panic => None
                         end) assets)
  ∧ ∀ a, a ∈ assets → assetEntry w repo tag a ≠ Panic.
Proof.
  revert db. induction assets as [|a l IH]; intros db.
  - intros [= <-]. split; [done|]. intros a Ha.
    by apply not_elem_of_nil in Ha.
  - cbn [reconcileAssets omap list_omap]. unfold reconcileAsset.
    destruct (assetEntry w repo tag a) as [[e|]|] eqn:He; [| |done].
    + intros [-> Hno]%IH. split; [done|].
      intros a' [->|Ha']%elem_of_cons; [congruence | by apply Hno].
    + intros [-> Hno]%IH. split; [done|].
      intros a' [->|Ha']%elem_of_cons; [congruence | by apply Hno].
Qed.

Lemma reconcile_entries (w : World) (repo tag : string)
    (db db' : Database.t) (assets : slice Asset.t) :
  reconcile w repo tag db assets = Ret db' →
  db' = foldl (λ db entry,
                 Database.mk
                   (Some (upsert (elems (Database.Blueprints db)) entry)))
          db (assetEntries w repo tag assets).
Proof. by intros [? _]%reconcileAssets_Ret. Qed.

Lemma reconcileAssets_completes (w : World) (repo tag : string)
    (assets : list Asset.t) (db : Database.t) :
  (∀ a, a ∈ assets → assetEntry w repo tag a ≠ Panic) →
  ∃ db', reconcileAssets w repo tag db assets = Ret db'.
Proof.
  revert db. induction assets as [|a l IH]; intros db Hno; [by eexists|].
  cbn [reconcileAssets]. unfold reconcileAsset.
  pose proof (Hno a (list_elem_of_here _ _)) as Ha.
  destruct (assetEntry w repo tag a) as [[e|]|]; [| |done];
    apply IH; intros a' Ha'; by apply Hno, list_elem_of_further.
Qed.

(** The loop completes when the request for the manifest of every
    archive asset can be built, whatever becomes of those requests. *)
Lemma reconcile_completes (w : World) (repo tag : string)
    (db : Database.t) (assets : slice Asset.t) :
  manifests_requestable w repo tag (elems assets) →
  ∃ db', reconcile w repo tag db assets = Ret db'.
Proof.
  intros Hok. apply reconcileAssets_completes.
  intros a Ha [Hzip Hno]%assetEntry_Panic.
  specialize (Hok a Ha Hzip). congruence.
Qed.


(** ** Manifest resolution *)




(** ** Fallback derivation *)

(** C6: the entry derived for an archive asset takes the name, version
    and description of the resolved manifest where they are not empty,
    and where one is empty the fallback in its place: the blueprint
    identifier, the tag with one leading [v] taken off, the identifier
    followed by [ blueprint]; the tags are the manifest's, with no
    fallback.  So the empty manifest, tag [v1.2.3] and asset [foo.zip]
    give name [foo], version [1.2.3], description [foo blueprint] and no
    tags. *)
Theorem fallback_derivation (w : World) (repo tag : string) (a : Asset.t)
    (man : bpManifest.t) (e : Blueprint.t) :
  resolveManifest w repo tag (blueprintID a) = Ret man →
  assetEntry w repo tag a = Ret (Some e) →
  (bpManifest.Name man ≠ "" → Blueprint.Name e = bpManifest.Name man)
  ∧ (bpManifest.Name man = "" → Blueprint.Name e = blueprintID a)
  ∧ (bpManifest.Version man ≠ "" →
     Blueprint.Version e = bpManifest.Version man)
  ∧ (bpManifest.Version man = "" →
     Blueprint.Version e = TrimPrefix tag "v"
     ∧ ∀ rest, tag = "v" +:+ rest → Blueprint.Version e = rest)
  ∧ (bpManifest.Description man ≠ "" →
     Blueprint.Description e = bpManifest.Description man)
  ∧ (bpManifest.Description man = "" →
     Blueprint.Description e = blueprintID a +:+ " blueprint")
  ∧ Blueprint.Tags e = bpManifest.Tags man
  ∧ (man = bpManifest.zero → tag = "v1.2.3" → Asset.Name a = "foo.zip" →
     e = Blueprint.mk "foo" "1.2.3" ("github.com/" +:+ repo)
           "blueprints/foo" (Asset.BrowserDownloadURL a) "foo blueprint"
           None).
Proof.
  intros Hman (Hzip & man' & Hman' & ->)%assetEntry_Some_inv.
  rewrite Hman in Hman'. injection Hman' as <-.
  unfold mkEntry, fallbacks. simpl. split_and!.
  - intros Hn. by rewrite bool_decide_eq_false_2.
  - intros Hn. by rewrite bool_decide_eq_true_2.
  - intros Hv. by rewrite bool_decide_eq_false_2.
  - intros Hv. rewrite bool_decide_eq_true_2 by done. split; [done|].
    intros rest ->. apply TrimPrefix_app.
  - intros Hd. by rewrite bool_decide_eq_false_2.
  - intros Hd. by rewrite bool_decide_eq_true_2.
  - done.
  - intros -> -> Ha. unfold blueprintID. rewrite Ha. reflexivity.
Qed.

Lemma fallback_derivation_witness :
  (let a := Asset.mk "foo.zip" "U1" in
   let man := bpManifest.mk "bar" "" "" None in
   let e := Blueprint.mk "bar" "1.2.3" "github.com/o/r" "blueprints/foo"
              "U1" "foo blueprint" None in
   (bpManifest.Name man ≠ "" → Blueprint.Name e = bpManifest.Name man)
   ∧ (bpManifest.Name man = "" → Blueprint.Name e = blueprintID a)
   ∧ (bpManifest.Version man ≠ "" →
      Blueprint.Version e = bpManifest.Version man)
   ∧ (bpManifest.Version man = "" →
      Blueprint.Version e = TrimPrefix "v1.2.3" "v"
      ∧ ∀ rest, "v1.2.3" = "v" +:+ rest → Blueprint.Version e = rest)
   ∧ (bpManifest.Description man ≠ "" →
      Blueprint.Description e = bpManifest.Description man)
   ∧ (bpManifest.Description man = "" →
      Blueprint.Description e = blueprintID a +:+ " blueprint")
   ∧ Blueprint.Tags e = bpManifest.Tags man
   ∧ (man = bpManifest.zero → "v1.2.3" = "v1.2.3" →
      Asset.Name a = "foo.zip" →
      e = Blueprint.mk "foo" "1.2.3" ("github.com/" +:+ "o/r")
            "blueprints/foo" (Asset.BrowserDownloadURL a) "foo blueprint"
            None))
  ∧ ∀ e,
      assetEntry example_world "o/r" "v1.2.3" (Asset.mk "foo.zip" "U1")
      = Ret (Some e) →
      e = Blueprint.mk "foo" "1.2.3" "github.com/o/r" "blueprints/foo" "U1"
            "foo blueprint" None.
Proof.
  split.
  - intros a man e.
    apply (fallback_derivation ill_typed_world "o/r" "v1.2.3" a man e).
    + by vm_compute.
    + by vm_compute.
  - intros e He.
    apply (fallback_derivation example_world "o/r" "v1.2.3"
             (Asset.mk "foo.zip" "U1") bpManifest.zero e);
      [by vm_compute | exact He | reflexivity..].
Defined.

(** ** Asset filter *)

(** C7: an asset whose name does not end in [.zip] is passed over and
    gives no entry, and the identifier of an archive asset is its name
    without the [.zip]; but an archive asset gives its entry only when
    the request for its manifest can be built.  For the asset
    [100%.zip] the URL of the manifest does not parse: the nil request
    makes [httpGet] panic, no entry is produced, the loop stops before
    the assets that follow, and the run ends with status 2 and nothing
    written. *)
Theorem archive_asset_panics :
  (∀ w repo tag a,
     ((∃ e, assetEntry w repo tag a = Ret (Some e))
      ↔ (∃ id, Asset.Name a = id +:+ ".zip")
        ∧ NewRequest_ok w (manifestURL repo tag (blueprintID a)) = true)
     ∧ (assetEntry w repo tag a = Ret None
        ↔ ¬ ∃ id, Asset.Name a = id +:+ ".zip")
     ∧ (assetEntry w repo tag a = Panic
        ↔ (∃ id, Asset.Name a = id +:+ ".zip")
          ∧ NewRequest_ok w (manifestURL repo tag (blueprintID a)) = false))
  ∧ (∀ id url, blueprintID (Asset.mk (id +:+ ".zip") url) = id)
  ∧ HasSuffix "100%.zip" ".zip" = true
  ∧ manifestURL "o/r" "v1.2.3" (blueprintID (Asset.mk "100%.zip" "U0"))
    = "https://raw.githubusercontent.com/o/r/v1.2.3/blueprints/100%/manifest.yaml/"
  ∧ assetEntry percent_world "o/r" "v1.2.3" (Asset.mk "100%.zip" "U0")
    = Panic
  ∧ reconcile percent_world "o/r" "v1.2.3" (Database.mk (Some []))
      (ghRelease.Assets percent_release) = Panic
  ∧ main percent_world = Run.mk 2 Panicked None.
Proof.
  split_and!; try by vm_compute.
  - intros w repo tag a. rewrite <- !HasSuffix_spec.
    destruct (HasSuffix (Asset.Name a) ".zip") eqn:Hzip.
    + rewrite (assetEntry_zip _ _ _ _ Hzip).
      destruct (resolveManifest w repo tag (blueprintID a)) as [man|]
        eqn:Hman.
      * assert (NewRequest_ok w (manifestURL repo tag (blueprintID a))
                = true) as Hok.
        { destruct (NewRequest_ok w _) eqn:Hok; [done|].
          apply resolveManifest_Panic in Hok. congruence. }
        rewrite Hok. split_and!.
        -- split; [done | eauto].
        -- split; [done | by intros []].
        -- split; [done | by intros [_ ?]].
      * apply resolveManifest_Panic in Hman. rewrite Hman. split_and!.
        -- split; [by intros [? ?] | by intros [_ ?]].
        -- split; [done | by intros []].
        -- done.
    + rewrite (assetEntry_not_zip _ _ _ _ Hzip). split_and!.
      * split; [by intros [? ?] | by intros [? _]].
      * split; [by intros _ ? | done].
      * split; [done | by intros [? _]].
  - intros id url. apply TrimSuffix_app.
Qed.

(** ** Manifest location *)

(** C8: the URL ends in a separator after [manifest.yaml]: the format has
    four [%s] verbs and the last is given the empty string.  So the part
    after the tag is not [blueprints/foo/manifest.yaml]. *)
Theorem manifestURL_trailing_separator :
  manifestURL "getDragon-dev/dragon-blueprints" "v1.2.3" "foo"
  = "https://raw.githubusercontent.com/getDragon-dev/dragon-blueprints/v1.2.3/blueprints/foo/manifest.yaml/"
  ∧ manifestURL "getDragon-dev/dragon-blueprints" "v1.2.3" "foo"
    ≠ "https://raw.githubusercontent.com/getDragon-dev/dragon-blueprints/v1.2.3/"
      +:+ "blueprints/" +:+ "foo" +:+ "/manifest.yaml"
  ∧ ∀ repo tag name,
      manifestURL repo tag name
      = "https://raw.githubusercontent.com/" +:+ repo +:+ "/" +:+ tag +:+ "/"
        +:+ path_Join ["blueprints"; name; "manifest.yaml"] +:+ "/".
Proof.
  split_and!; [by vm_compute | by vm_compute |].
  intros repo tag name. unfold manifestURL.
  do 5 f_equal.
Qed.

(** ** Catalog store *)

(** C9: [loadDB] gives the empty catalog, and no error, when the file
    does not exist; it gives the decoder's error when the content does
    not decode, and a run stops there with nothing written; on content
    that decodes it gives the decoded entries in a collection that is
    never nil. *)
Theorem loadDB_contract (w : World) (p : string) :
  (∀ err, ReadFile w p = inr err → is_not_exist err = true →
     loadDB w p = (Database.mk (Some []), None))
  ∧ (∀ b db err,
       ReadFile w p = inl b →
       json_Unmarshal_Database w b (Database.mk None) = (db, Some err) →
       loadDB w p = (db, Some err)
       ∧ (p = "registry.json" → Getenv w "TAG" ≠ "" →
          Getenv w "BLUEPRINTS_REPO" ≠ "" →
          main w = Run.mk 1 (LoadRegistry err) None))
  ∧ (∀ b db,
       ReadFile w p = inl b →
       json_Unmarshal_Database w b (Database.mk None) = (db, None) →
       loadDB w p
       = (Database.mk (Some (elems (Database.Blueprints db))), None)).
Proof.
  split_and!.
  - intros err Hread Hne. unfold loadDB. by rewrite Hread, Hne.
  - intros b db err Hread Hdec.
    assert (loadDB w p = (db, Some err)) as Hload.
    { unfold loadDB. by rewrite Hread, Hdec. }
    split; [done|]. intros -> Htag Hrepo. unfold main.
    rewrite !bool_decide_eq_false_2 by done. cbn [orb].
    by rewrite Hload.
  - intros b db Hread Hdec. unfold loadDB. rewrite Hread, Hdec.
    by destruct db as [[l|]].
Qed.

Lemma loadDB_contract_witness :
  loadDB example_world "registry.json" = (Database.mk (Some []), None)
  ∧ loadDB example_world "broken.json"
    = (Database.mk None, Some (ErrDecode "unexpected end of JSON input"))
  ∧ loadDB example_world "empty.json" = (Database.mk (Some []), None).
Proof.
  split_and!.
  - destruct (loadDB_contract example_world "registry.json")
      as (Hmissing & _ & _).
    eapply Hmissing; reflexivity.
  - destruct (loadDB_contract example_world "broken.json")
      as (_ & Hbroken & _).
    edestruct Hbroken as [Hload _]; [reflexivity | reflexivity |].
    exact Hload.
  - destruct (loadDB_contract example_world "empty.json")
      as (_ & _ & Hdecoded).
    eapply (Hdecoded "{}" (Database.mk None)); reflexivity.
Defined.

(** ** Tags in the saved file *)

Lemma string_app_assoc (a b c : string) : (a +:+ b) +:+ c = a +:+ b +:+ c.
Proof.
  induction a as [|x a IH]; [done|].
  change (String x ((a +:+ b) +:+ c) = String x (a +:+ b +:+ c)).
  by rewrite IH.
Qed.

Lemma indent_Blueprint_nil_tags (q : string → string) (depth : nat)
    (b : Blueprint.t) :
  Blueprint.Tags b = None →
  HasSuffix (indent q depth (json_Blueprint b)) (null_tags_end depth) = true.
Proof.
  intros Htags. apply HasSuffix_spec.
  unfold json_Blueprint, json_strings, null_tags_end. rewrite Htags.
  cbn [indent]. rewrite !string_app_assoc.
  repeat
    match goal with
    | |- ∃ p, ?a +:+ ?rest = p +:+ ?suffix =>
        first
          [ by exists a
          | cut (∃ p', rest = p' +:+ suffix);
            [ intros [p' ->]; exists (a +:+ p');
              by rewrite string_app_assoc
            | ] ]
    end.
Qed.

(** C10: the tags of an entry are those of the resolved manifest as they
    are, so a manifest without tags gives an entry whose tags are nil;
    [saveDB] writes such an entry with ["tags": null], for it makes an
    explicit list of the [blueprints] collection only. *)
Theorem nil_tags_saved_as_null (w : World) (repo tag p : string) :
  (∀ a entry,
     assetEntry w repo tag a = Ret (Some entry) →
     ∃ man,
       resolveManifest w repo tag (blueprintID a) = Ret man
       ∧ Blueprint.Tags entry = bpManifest.Tags man)
  ∧ (∀ db,
       fst (saveDB w p db)
       = (p, indent (json_quote w) 0
               (JObject
                  [("blueprints",
                    JArray
                      (json_Blueprint
                         <$> elems (Database.Blueprints db)))])))
  ∧ (∀ b, Blueprint.Tags b = None →
       json_Blueprint b
       = JObject [("name", JString (Blueprint.Name b));
                  ("version", JString (Blueprint.Version b));
                  ("repo", JString (Blueprint.Repo b));
                  ("path", JString (Blueprint.Path b));
                  ("download_url", JString (Blueprint.DownloadURL b));
                  ("description", JString (Blueprint.Description b));
                  ("tags", JNull)]
       ∧ ∀ depth,
           HasSuffix (indent (json_quote w) depth (json_Blueprint b))
             (null_tags_end depth) = true)
  ∧ snd (fst (saveDB w p (Database.mk None)))
    = "{" +:+ nl +:+ "  " +:+ dquote +:+ "blueprints" +:+ dquote +:+ ": []"
      +:+ nl +:+ "}"
  ∧ ∃ file,
      Run.written (main example_world) = Some ("registry.json", file)
      ∧ HasSuffix file
          (null_tags_end 2 +:+ nl +:+ pad 1 +:+ "]" +:+ nl +:+ "}") = true.
Proof.
  split_and!.
  - intros a entry (_ & man & Hman & ->)%assetEntry_Some_inv.
    exists man. by split.
  - intros db. by destruct db as [[l|]].
  - intros b Htags. split.
    + unfold json_Blueprint, json_strings. by rewrite Htags.
    + intros depth. by apply indent_Blueprint_nil_tags.
  - reflexivity.
  - eexists. split; by vm_compute.
Qed.

Lemma nil_tags_saved_as_null_witness :
  ∃ man,
    resolveManifest example_world "o/r" "v1.2.3"
      (blueprintID (Asset.mk "foo.zip" "U1")) = Ret man
    ∧ Blueprint.Tags
        (Blueprint.mk "foo" "1.2.3" "github.com/o/r" "blueprints/foo" "U1"
           "foo blueprint" None)
      = bpManifest.Tags man.
Proof.
  apply (nil_tags_saved_as_null example_world "o/r" "v1.2.3"
           "registry.json").
  reflexivity.
Defined.

(** * Further properties of the code *)

(** ** httpGet *)

Lemma httpGet_request (w : World) (url : string) :
  httpGet w url
  = if negb (NewRequest_ok w url) then Panic
    else match Do w (httpRequest w url) with
         | inr err => Ret ("", Some err)
         | inl resp =>
             if negb (Z.quot (Response.StatusCode resp) 100 =? 2)%Z then
               Ret ("", Some (ErrStatus url (Response.StatusCode resp)
                                (fst (Response.Body resp))))
             else Ret (Response.Body resp)
         end.
Proof. reflexivity. Qed.

Lemma status_2xx (code : Z) :
  (Z.quot code 100 =? 2)%Z = true ↔ (200 ≤ code ≤ 299)%Z.
Proof.
  rewrite Z.eqb_eq. Z.to_euclidean_division_equations. lia.
Qed.

(** X1: [httpGet] gives bytes and no error exactly when the request can
    be built, the transport answers, the status is one of 200 to 299, and
    the body is read to its end; the bytes are that body.  It panics
    exactly when the request cannot be built. *)
Theorem httpGet_success_iff (w : World) (url body : string) :
  (httpGet w url = Ret (body, None)
   ↔ NewRequest_ok w url = true
     ∧ ∃ resp,
         Do w (httpRequest w url) = inl resp
         ∧ (200 ≤ Response.StatusCode resp ≤ 299)%Z
         ∧ Response.Body resp = (body, None))
  ∧ (httpGet w url = Panic ↔ NewRequest_ok w url = false).
Proof.
  split; [|apply httpGet_Panic].
  rewrite httpGet_request.
  destruct (NewRequest_ok w url); simpl; [|by split; [|intros [? _]]].
  split.
  - destruct (Do w (httpRequest w url)) as [resp|err]; [|done].
    destruct (Z.quot (Response.StatusCode resp) 100 =? 2)%Z eqn:Hcode;
      simpl; [|done].
    intros [= Hbody]. split; [done|]. exists resp.
    split; [done|]. split; [by apply status_2xx | done].
  - intros (_ & resp & -> & Hcode%status_2xx & Hbody).
    by rewrite Hcode, Hbody.
Qed.

(** X2: [httpGet] returns an error exactly when the request can be built
    and the error is the transport's, or, for a status outside 200 to
    299, one that carries the URL, the status and the body of the answer
    (no bytes are returned then), or the error that cut the reading of a
    2xx body short. *)
Theorem httpGet_error_iff (w : World) (url : string) (err : error) :
  (∃ b, httpGet w url = Ret (b, Some err))
  ↔ NewRequest_ok w url = true
    ∧ (Do w (httpRequest w url) = inr err
       ∨ (∃ resp,
            Do w (httpRequest w url) = inl resp
            ∧ ¬ (200 ≤ Response.StatusCode resp ≤ 299)%Z
            ∧ err = ErrStatus url (Response.StatusCode resp)
                      (fst (Response.Body resp)))
       ∨ (∃ resp,
            Do w (httpRequest w url) = inl resp
            ∧ (200 ≤ Response.StatusCode resp ≤ 299)%Z
            ∧ snd (Response.Body resp) = Some err)).
Proof.
  rewrite httpGet_request.
  destruct (NewRequest_ok w url); simpl;
    [|by split; [intros [? ?] | intros [? _]]].
  destruct (Do w (httpRequest w url)) as [resp|e]; simpl.
  - destruct (Z.quot (Response.StatusCode resp) 100 =? 2)%Z eqn:Hcode;
      simpl.
    + apply status_2xx in Hcode. split.
      * intros [b [= Hbody]]. split; [done|]. right. right.
        exists resp. by rewrite Hbody.
      * intros [_ [[=] | [(r & [= <-] & Hno & _) | (r & [= <-] & _ & Hb)]]];
          [done|].
        destruct (Response.Body resp) as [b e']. simpl in Hb. subst e'.
        by exists b.
    + assert (¬ (200 ≤ Response.StatusCode resp ≤ 299)%Z) as Hno.
      { intros H%status_2xx. congruence. }
      split.
      * intros [b [= _ <-]]. split; [done|]. right. left. by exists resp.
      * intros [_ [[=] | [(r & [= <-] & _ & ->) | (r & [= <-] & Hyes & _)]]];
          [by eexists | done].
  - split.
    + intros [b [= _ ->]]. split; [done|]. by left.
    + intros [_ [[= ->] | [(r & [=] & _) | (r & [=] & _)]]]. by eexists.
Qed.

(** ** loadDB and saveDB *)

(** X3: [loadDB] fails exactly on a read error other than a missing file,
    which it hands on, and on the error of the decoder. *)
Theorem loadDB_error_iff (w : World) (p : string) (err : error) :
  snd (loadDB w p) = Some err
  ↔ (ReadFile w p = inr err ∧ is_not_exist err = false)
    ∨ ∃ b,
        ReadFile w p = inl b
        ∧ snd (json_Unmarshal_Database w b (Database.mk None)) = Some err.
Proof.
  unfold loadDB. destruct (ReadFile w p) as [b|e].
  - destruct (json_Unmarshal_Database w b (Database.mk None))
      as [db [e|]] eqn:Hdec; simpl.
    + split.
      * intros [= ->]. right. exists b. by rewrite Hdec.
      * intros [[[=] _] | (b' & [= <-] & Herr)].
        rewrite Hdec in Herr. done.
    + split.
      * by destruct (Database.Blueprints db).
      * intros [[[=] _] | (b' & [= <-] & Herr)].
        rewrite Hdec in Herr. done.
  - destruct (is_not_exist e) eqn:Hne; simpl.
    + split; [done|].
      intros [[[= ->] Hno] | (b & [=] & _)]. congruence.
    + split.
      * intros [= ->]. by left.
      * intros [[[= ->] _] | (b & [=] & _)]. done.
Qed.

Lemma saveDB_write (w : World) (p : string) (db : Database.t) :
  ∃ file, saveDB w p db = ((p, file), WriteFile w p file).
Proof. unfold saveDB. eauto. Qed.

(** X4: Whatever the catalog, the file [saveDB] asks to write opens the
    [blueprints] member as a list, never as [null]; a nil and an empty
    catalog are saved alike. *)
Theorem saveDB_explicit_list (w : World) (p : string) (db : Database.t) :
  HasPrefix (snd (fst (saveDB w p db))) blueprints_open = true
  ∧ saveDB w p (Database.mk None) = saveDB w p (Database.mk (Some [])).
Proof.
  split; [|done].
  destruct db as [[[|b l]|]]; [done | | done].
  unfold saveDB, MarshalIndent, json_Database.
  cbn [Database.Blueprints fst snd]. rewrite fmap_cons. cbn [indent].
  rewrite !string_app_assoc.
  apply (HasPrefix_app blueprints_open).
Qed.

(** ** The ways a run ends *)

(** [main], stage by stage: each stage that fails ends the run with
    status 1 and its own line, a panic ends it with status 2, and only
    the last stage writes. *)
Lemma main_cases (w : World) :
  let tag := Getenv w "TAG" in
  let repo := Getenv w "BLUEPRINTS_REPO" in
  ((tag = "" ∨ repo = "") ∧ main w = Run.mk 1 MissingEnv None)
  ∨ (tag ≠ "" ∧ repo ≠ ""
     ∧ ((∃ err, snd (loadDB w "registry.json") = Some err
                ∧ main w = Run.mk 1 (LoadRegistry err) None)
        ∨ ∃ db, loadDB w "registry.json" = (db, None)
          ∧ ((httpGet w (relURL repo tag) = Panic
              ∧ main w = Run.mk 2 Panicked None)
             ∨ (∃ b err, httpGet w (relURL repo tag) = Ret (b, Some err)
                         ∧ main w = Run.mk 1 (Release err) None)
             ∨ ∃ rb, httpGet w (relURL repo tag) = Ret (rb, None)
               ∧ ((∃ err,
                     snd (json_Unmarshal_ghRelease w rb
                            (ghRelease.mk "" None)) = Some err
                     ∧ main w = Run.mk 1 (DecodeRelease err) None)
                  ∨ ∃ rel,
                      json_Unmarshal_ghRelease w rb (ghRelease.mk "" None)
                      = (rel, None)
                      ∧ ((reconcile w repo tag db (ghRelease.Assets rel)
                          = Panic
                          ∧ main w = Run.mk 2 Panicked None)
                         ∨ ∃ db' file,
                             reconcile w repo tag db (ghRelease.Assets rel)
                             = Ret db'
                             ∧ fst (saveDB w "registry.json" db')
                               = ("registry.json", file)
                             ∧ ((∃ err,
                                   WriteFile w "registry.json" file
                                   = Some err
                                   ∧ main w
                                     = Run.mk 1 (SaveRegistry err)
                                         (Some ("registry.json", file)))
                                ∨ (WriteFile w "registry.json" file = None
                                   ∧ main w
                                     = Run.mk 0
                                         (Updated tag (Now w)
                                            (length
                                               (elems
                                                  (Database.Blueprints
                                                     db'))))
                                         (Some ("registry.json",
                                                file))))))))).
Proof.
  intros tag repo. unfold main. fold tag repo.
  destruct (decide (tag = "")) as [Htag|Htag].
  { left. split; [by left|]. by rewrite (bool_decide_eq_true_2 _ Htag). }
  destruct (decide (repo = "")) as [Hrepo|Hrepo].
  { left. split; [by right|].
    rewrite (bool_decide_eq_true_2 _ Hrepo). by rewrite orb_true_r. }
  right. split_and!; [done..|].
  rewrite !bool_decide_eq_false_2 by done. cbn [orb].
  destruct (loadDB w "registry.json") as [db [err|]]; cbv beta iota zeta.
  { left. eauto. }
  right. exists db. split; [done|].
  destruct (httpGet w (relURL repo tag)) as [[rb [err|]]|];
    cbv beta iota zeta.
  { right. left. eauto. }
  2:{ by left. }
  right. right. exists rb. split; [done|].
  destruct (json_Unmarshal_ghRelease w rb (ghRelease.mk "" None))
    as [rel [err|]]; cbv beta iota zeta.
  { left. eauto. }
  right. exists rel. split; [done|].
  destruct (reconcile w repo tag db (ghRelease.Assets rel)) as [db'|];
    cbv beta iota zeta.
  2:{ by left. }
  right.
  destruct (saveDB_write w "registry.json" db') as [file Hsave].
  exists db', file. rewrite Hsave. split_and!; [done..|].
  destruct (WriteFile w "registry.json" file) as [err|]; [left|right]; eauto.
Qed.

(** X5: A run ends on the configuration error exactly when [TAG] or
    [BLUEPRINTS_REPO] is empty; its status is then 1 and nothing is
    written, whatever the file system and the network hold. *)
Theorem main_missing_env_iff (w : World) :
  (Getenv w "TAG" = "" ∨ Getenv w "BLUEPRINTS_REPO" = "")
  ↔ main w = Run.mk 1 MissingEnv None.
Proof.
  split.
  - intros Hmissing.
    destruct (main_cases w) as [[_ Hmain] | (Htag & Hrepo & _)]; [done|].
    by destruct Hmissing.
  - intros Hmain.
    destruct (main_cases w) as [[Hmissing _] | (_ & _ & Hrest)]; [done|].
    rewrite Hmain in Hrest.
    destruct Hrest as [(? & _ & [=]) | (? & _ & [(_ & [=])
      | [(? & ? & _ & [=]) | (? & _ & [(? & _ & [=])
      | (? & _ & [(_ & [=]) | (? & ? & _ & _ & [(? & _ & [=])
      | (_ & [=])])])])]])].
Qed.

(** X6: The status of a run is 0, 1 or 2.  It is 0 exactly when the run
    asked for [registry.json] to be written and the write succeeded, and
    2 exactly when the run panicked: the configuration and the catalog
    were there and a request could not be built, for the release or, the
    release obtained and decoded, for the manifest of an archive asset. *)
Theorem main_exit_status (w : World) :
  (Run.status (main w) = 0%Z ∨ Run.status (main w) = 1%Z
   ∨ Run.status (main w) = 2%Z)
  ∧ (Run.status (main w) = 0%Z
     ↔ ∃ file,
         Run.written (main w) = Some ("registry.json", file)
         ∧ WriteFile w "registry.json" file = None)
  ∧ (Run.status (main w) = 2%Z ↔ Run.line (main w) = Panicked)
  ∧ (Run.line (main w) = Panicked
     ↔ Getenv w "TAG" ≠ "" ∧ Getenv w "BLUEPRINTS_REPO" ≠ ""
       ∧ ∃ db, loadDB w "registry.json" = (db, None)
         ∧ (NewRequest_ok w
              (relURL (Getenv w "BLUEPRINTS_REPO") (Getenv w "TAG"))
            = false
            ∨ ∃ rb rel,
                httpGet w
                  (relURL (Getenv w "BLUEPRINTS_REPO") (Getenv w "TAG"))
                = Ret (rb, None)
                ∧ json_Unmarshal_ghRelease w rb (ghRelease.mk "" None)
                  = (rel, None)
                ∧ ¬ manifests_requestable w (Getenv w "BLUEPRINTS_REPO")
                      (Getenv w "TAG") (elems (ghRelease.Assets rel)))).
Proof.
  pose proof (main_cases w) as Hcases. cbv zeta in Hcases.
  destruct Hcases as [[Hmissing ->] | (Htag & Hrepo & Hrest)].
  { simpl. split_and!; [by right; left | | done |].
    - split; [done | by intros (? & [=] & _)].
    - split; [done|]. intros (? & ? & _). by destruct Hmissing. }
  destruct Hrest as [(e & Hload & ->) | (db & Hload & Hrest)].
  { simpl. split_and!; [by right; left | | done |].
    - split; [done | by intros (? & [=] & _)].
    - split; [done|]. intros (_ & _ & db & Hload' & _).
      rewrite Hload' in Hload. done. }
  destruct Hrest as [(Hget & ->) | [(b & e & Hget & ->)
    | (rb & Hget & Hrest)]].
  { simpl. split_and!; [by right; right | | done |].
    - split; [done | by intros (? & [=] & _)].
    - split; [|done]. intros _. split_and!; [done..|].
      exists db. split; [done|]. left. by apply httpGet_Panic. }
  { simpl. split_and!; [by right; left | | done |].
    - split; [done | by intros (? & [=] & _)].
    - split; [done|].
      intros (_ & _ & _ & _ & [Hno | (? & ? & Hget' & _)]).
      + apply httpGet_Panic in Hno. congruence.
      + congruence. }
  destruct Hrest as [(e & Hdec & ->) | (rel & Hdec & Hrest)].
  { simpl. split_and!; [by right; left | | done |].
    - split; [done | by intros (? & [=] & _)].
    - split; [done|].
      intros (_ & _ & _ & _ & [Hno | (rb' & rel' & Hget' & Hdec' & _)]).
      + apply httpGet_Panic in Hno. congruence.
      + rewrite Hget in Hget'. injection Hget' as <-.
        rewrite Hdec' in Hdec. done. }
  destruct Hrest as [(Hloop & ->) | (db' & file & Hloop & _ & Hrest)].
  { simpl. split_and!; [by right; right | | done |].
    - split; [done | by intros (? & [=] & _)].
    - split; [|done]. intros _. split_and!; [done..|].
      exists db. split; [done|]. right. exists rb, rel.
      split_and!; [done..|]. intros Hok.
      destruct (reconcile_completes w _ _ db _ Hok) as [? Hret].
      congruence. }
  assert (¬ (Getenv w "TAG" ≠ "" ∧ Getenv w "BLUEPRINTS_REPO" ≠ ""
             ∧ ∃ db0, loadDB w "registry.json" = (db0, None)
               ∧ (NewRequest_ok w
                    (relURL (Getenv w "BLUEPRINTS_REPO") (Getenv w "TAG"))
                  = false
                  ∨ ∃ rb0 rel0,
                      httpGet w
                        (relURL (Getenv w "BLUEPRINTS_REPO")
                           (Getenv w "TAG")) = Ret (rb0, None)
                      ∧ json_Unmarshal_ghRelease w rb0
                          (ghRelease.mk "" None) = (rel0, None)
                      ∧ ¬ manifests_requestable w
                            (Getenv w "BLUEPRINTS_REPO") (Getenv w "TAG")
                            (elems (ghRelease.Assets rel0))))) as Hnopanic.
  { intros (_ & _ & _ & _ & [Hno | (rb' & rel' & Hget' & Hdec' & Hbad)]).
    - apply httpGet_Panic in Hno. congruence.
    - rewrite Hget in Hget'. injection Hget' as <-.
      rewrite Hdec in Hdec'. injection Hdec' as <-.
      apply Hbad. intros a Ha Hzip.
      destruct (NewRequest_ok w _) eqn:Hok; [done|].
      apply reconcileAssets_Ret in Hloop as [_ Hnone].
      destruct (Hnone a Ha). by apply assetEntry_Panic. }
  destruct Hrest as [(err & Hwrite & ->) | (Hwrite & ->)]; simpl.
  - split_and!; [by right; left | | done | done].
    split; [done|]. intros (? & [= <-] & Hok). congruence.
  - split_and!; [by left | | done | done].
    split; [eauto | done].
Qed.

(** X7: A run that fails before the save writes nothing: no file is
    asked for exactly when the run ends on the configuration, the
    catalog, the release or its decoding, or on a panic; and
    [registry.json] is the only file a run ever asks for. *)
Theorem main_written_iff (w : World) :
  (Run.written (main w) = None
   ↔ match Run.line (main w) with
     | MissingEnv | LoadRegistry _ | Release _ | DecodeRelease _
     | Panicked => True
     | SaveRegistry _ | Updated _ _ _ => False
     end)
  ∧ ∀ p file, Run.written (main w) = Some (p, file) → p = "registry.json".
Proof.
  pose proof (main_cases w) as Hcases. cbv zeta in Hcases.
  destruct Hcases as [[_ ->] | (_ & _ & [(? & _ & ->)
    | (? & _ & [(_ & ->) | [(? & ? & _ & ->) | (? & _ & [(? & _ & ->)
    | (? & _ & [(_ & ->) | (? & ? & _ & _ & [(? & _ & ->)
    | (_ & ->)])])])]])])];
    simpl; (split; [done | by intros ? ? [= <- _]]).
Qed.

(** ** Upsert as a keyed store *)

Lemma list_find_insert_other {A} (P : A → Prop) `{∀ x, Decision (P x)}
    (l : list A) (i : nat) (x y : A) :
  l !! i = Some y → ¬ P y → ¬ P x →
  list_find P (<[i := x]> l) = list_find P l.
Proof.
  revert i. induction l as [|c l IH]; intros i Hi Hy Hx; [done|].
  destruct i as [|i]; simpl in *.
  - injection Hi as ->. by rewrite !decide_False by done.
  - destruct (decide (P c)); [done|]. by rewrite IH.
Qed.

Lemma list_find_snoc_other {A} (P : A → Prop) `{∀ x, Decision (P x)}
    (l : list A) (x : A) :
  ¬ P x → list_find P (l ++ [x]) = list_find P l.
Proof.
  intros Hx. induction l as [|c l IH]; simpl.
  - by rewrite decide_False by done.
  - destruct (decide (P c)); [done|]. by rewrite IH.
Qed.

(** An upsert leaves the search for any other name as it was, index
    and entry. *)
Lemma list_find_upsert_ne (C : list Blueprint.t) (E : Blueprint.t)
    (n : string) :
  n ≠ Blueprint.Name E →
  list_find (λ b, Blueprint.Name b = n) (upsert C E)
  = list_find (λ b, Blueprint.Name b = n) C.
Proof.
  intros Hne.
  destruct (list_find (named E) C) as [[i b]|] eqn:Hfind.
  - rewrite (upsert_found _ _ _ _ Hfind).
    apply list_find_Some in Hfind as (Hi & Hname & _).
    apply (list_find_insert_other _ C i E b Hi); congruence.
  - rewrite (upsert_not_found _ _ Hfind).
    apply list_find_snoc_other. congruence.
Qed.

Lemma lookupName_upsert_eq (C : list Blueprint.t) (E : Blueprint.t) :
  lookupName (Blueprint.Name E) (upsert C E) = Some E.
Proof.
  unfold lookupName. destruct (upsert_first_match C E) as [i Hfind].
  by rewrite Hfind.
Qed.

Lemma lookupName_upsert_ne (C : list Blueprint.t) (E : Blueprint.t)
    (n : string) :
  n ≠ Blueprint.Name E → lookupName n (upsert C E) = lookupName n C.
Proof. intros Hne. unfold lookupName. by rewrite list_find_upsert_ne. Qed.

Lemma lookupName_Some (n : string) (C : list Blueprint.t) (b : Blueprint.t) :
  lookupName n C = Some b → b ∈ C ∧ Blueprint.Name b = n.
Proof.
  unfold lookupName.
  destruct (list_find _ C) as [[i x]|] eqn:Hfind; [|done].
  intros [= <-]. apply list_find_Some in Hfind as (Hi & Hname & _).
  split; [|done]. apply list_elem_of_lookup. eauto.
Qed.

Lemma lookupName_None (n : string) (C : list Blueprint.t) :
  lookupName n C = None ↔ n ∉ Blueprint.Name <$> C.
Proof.
  unfold lookupName. rewrite fmap_None, list_find_None, Forall_forall.
  rewrite list_elem_of_fmap. split.
  - intros Hno (b & -> & Hb). by apply (Hno b).
  - intros Hno b Hb Hname. apply Hno. eauto.
Qed.

(** The names after an upsert: those before, in their order, with the
    name of the entry added at the end when it was not among them. *)
Lemma upsert_names (C : list Blueprint.t) (E : Blueprint.t) :
  Blueprint.Name <$> upsert C E
  = if decide (Blueprint.Name E ∈ Blueprint.Name <$> C)
    then Blueprint.Name <$> C
    else (Blueprint.Name <$> C) ++ [Blueprint.Name E].
Proof.
  destruct (list_find (named E) C) as [[i b]|] eqn:Hfind.
  - rewrite (upsert_found _ _ _ _ Hfind), list_fmap_insert.
    apply list_find_Some in Hfind as (Hi & Hname & _).
    assert ((Blueprint.Name <$> C) !! i = Some (Blueprint.Name E)) as Hn.
    { rewrite list_lookup_fmap, Hi. simpl. by rewrite Hname. }
    rewrite (list_insert_id _ _ _ Hn).
    rewrite decide_True; [done|]. apply list_elem_of_lookup. eauto.
  - rewrite (upsert_not_found _ _ Hfind), fmap_app.
    rewrite decide_False; [done|].
    apply (lookupName_None (Blueprint.Name E) C).
    unfold lookupName. by rewrite Hfind.
Qed.

(** X10: Looking a name up after an upsert: the name of the entry gives the
    entry, whatever was there before; any other name gives what it gave
    before; and a name is found afterwards exactly when it is that of the
    entry or was found before. *)
Theorem upsert_lookup (C : list Blueprint.t) (E : Blueprint.t) (n : string) :
  lookupName n (upsert C E)
  = (if decide (n = Blueprint.Name E) then Some E else lookupName n C)
  ∧ (is_Some (lookupName n (upsert C E))
     ↔ n = Blueprint.Name E ∨ is_Some (lookupName n C)).
Proof.
  assert (lookupName n (upsert C E)
          = if decide (n = Blueprint.Name E) then Some E
            else lookupName n C) as Hlookup.
  { destruct (decide (n = Blueprint.Name E)) as [->|Hne].
    - apply lookupName_upsert_eq.
    - by apply lookupName_upsert_ne. }
  split; [done|]. rewrite Hlookup.
  destruct (decide (n = Blueprint.Name E)) as [->|Hne].
  - split; [by left | eauto].
  - split; [by right | by intros [?|?]].
Qed.

(** ** The loop over the assets *)

Lemma fold_upsert_elems (es : list Blueprint.t) (db : Database.t) :
  elems
    (Database.Blueprints
       (foldl (λ db entry,
                 Database.mk
                   (Some (upsert (elems (Database.Blueprints db)) entry)))
          db es))
  = foldl upsert (elems (Database.Blueprints db)) es.
Proof.
  revert db. induction es as [|e es IH]; intros db; [done|].
  simpl. by rewrite IH.
Qed.

Lemma reconcile_elems (w : World) (repo tag : string) (db db' : Database.t)
    (assets : slice Asset.t) :
  reconcile w repo tag db assets = Ret db' →
  elems (Database.Blueprints db')
  = foldl upsert (elems (Database.Blueprints db))
      (assetEntries w repo tag assets).
Proof. intros ->%reconcile_entries. apply fold_upsert_elems. Qed.

Lemma assetEntries_length (w : World) (repo tag : string)
    (assets : slice Asset.t) :
  length (assetEntries w repo tag assets)
  ≤ length (filter (λ a, HasSuffix (Asset.Name a) ".zip" = true)
              (elems assets)).
Proof.
  unfold assetEntries. induction (elems assets) as [|a l IH]; [done|].
  cbn [omap list_omap].
  destruct (HasSuffix (Asset.Name a) ".zip") eqn:Hzip.
  - rewrite filter_cons_True by done.
    destruct (assetEntry w repo tag a) as [[e|]|]; simpl; lia.
  - rewrite filter_cons_False by congruence.
    by rewrite (assetEntry_not_zip _ _ _ _ Hzip).
Qed.

Lemma upsert_length (C : list Blueprint.t) (E : Blueprint.t) :
  length C ≤ length (upsert C E) ≤ length C + 1.
Proof.
  unfold upsert. destruct (list_find (named E) C) as [[i b]|].
  - rewrite length_insert. lia.
  - rewrite length_app. simpl. lia.
Qed.

Lemma fold_upsert_length (es C : list Blueprint.t) :
  length C ≤ length (foldl upsert C es) ≤ length C + length es.
Proof.
  revert C. induction es as [|e es IH]; intros C; simpl; [lia|].
  specialize (IH (upsert C e)). pose proof (upsert_length C e). lia.
Qed.

Lemma fold_upsert_names_prefix (es C : list Blueprint.t) :
  (Blueprint.Name <$> C) `prefix_of` (Blueprint.Name <$> foldl upsert C es).
Proof.
  revert C. induction es as [|e es IH]; intros C; simpl; [done|].
  etrans; [|apply IH]. rewrite upsert_names. case_decide; [done|].
  by apply prefix_app_r.
Qed.

Lemma upsert_keeps_unique (C : list Blueprint.t) (E : Blueprint.t) :
  unique_names C → unique_names (upsert C E).
Proof.
  unfold unique_names. intros Hnd. rewrite upsert_names.
  case_decide as Hin; [done|].
  apply NoDup_app. split_and!; [done| |apply NoDup_singleton].
  intros n Hn Hn'. apply list_elem_of_singleton in Hn' as ->. done.
Qed.

Lemma fold_upsert_unique (es C : list Blueprint.t) :
  unique_names C → unique_names (foldl upsert C es).
Proof.
  revert C. induction es as [|e es IH]; intros C Hnd; simpl; [done|].
  by apply IH, upsert_keeps_unique.
Qed.

Lemma lastNamed_cons (n : string) (e : Blueprint.t) (es : list Blueprint.t) :
  lastNamed n (e :: es)
  = match lastNamed n es with
    | Some e' => Some e'
    | None => if decide (Blueprint.Name e = n) then Some e else None
    end.
Proof.
  unfold lastNamed. rewrite filter_cons.
  destruct (decide (Blueprint.Name e = n)); [rewrite last_cons|];
    by destruct (last _).
Qed.

Lemma lastNamed_Some (n : string) (es : list Blueprint.t) (e : Blueprint.t) :
  lastNamed n es = Some e → e ∈ es ∧ Blueprint.Name e = n.
Proof.
  unfold lastNamed. intros Hlast.
  assert (e ∈ filter (λ e, Blueprint.Name e = n) es) as Hin.
  { apply last_Some in Hlast as [l ->]. apply elem_of_app. right.
    by apply list_elem_of_singleton. }
  by apply list_elem_of_filter in Hin as [? ?].
Qed.

Lemma lastNamed_is_Some (es : list Blueprint.t) (e : Blueprint.t) :
  e ∈ es → is_Some (lastNamed (Blueprint.Name e) es).
Proof.
  intros Hin. unfold lastNamed.
  assert (e ∈ filter (λ e', Blueprint.Name e' = Blueprint.Name e) es)
    as Hf by by apply list_elem_of_filter.
  destruct (filter _ es) as [|x l] eqn:Hl.
  - by apply not_elem_of_nil in Hf.
  - rewrite last_cons. destruct (last l); eauto.
Qed.

Lemma lastNamed_None (n : string) (es : list Blueprint.t) :
  lastNamed n es = None ↔ ∀ e, e ∈ es → Blueprint.Name e ≠ n.
Proof.
  unfold lastNamed. rewrite last_None. split.
  - intros Hnil e He Hname.
    assert (e ∈ filter (λ e, Blueprint.Name e = n) es) as Hf
      by by apply list_elem_of_filter.
    rewrite Hnil in Hf. by apply not_elem_of_nil in Hf.
  - intros Hno. destruct (filter _ es) as [|x l] eqn:Hl; [done|].
    assert (x ∈ filter (λ e, Blueprint.Name e = n) es) as Hf.
    { rewrite Hl. apply list_elem_of_here. }
    apply list_elem_of_filter in Hf as [Hname Hx]. by destruct (Hno x).
Qed.

(** After a run of upserts a name gives the last of the entries that
    had it, and what it gave before when none had it. *)
Lemma fold_upsert_lookup (es C : list Blueprint.t) (n : string) :
  lookupName n (foldl upsert C es)
  = match lastNamed n es with
    | Some e => Some e
    | None => lookupName n C
    end.
Proof.
  revert C. induction es as [|e es IH]; intros C; simpl; [done|].
  rewrite IH, lastNamed_cons. destruct (lastNamed n es); [done|].
  destruct (decide (Blueprint.Name e = n)) as [<-|Hne].
  - apply lookupName_upsert_eq.
  - apply lookupName_upsert_ne. congruence.
Qed.

Lemma upsert_untouched (C : list Blueprint.t) (E b : Blueprint.t) (i : nat) :
  C !! i = Some b → Blueprint.Name E ≠ Blueprint.Name b →
  upsert C E !! i = Some b.
Proof.
  intros Hi Hne. unfold upsert.
  destruct (list_find (named E) C) as [[j x]|] eqn:Hfind.
  - apply list_find_Some in Hfind as (Hj & Hname & _).
    rewrite list_lookup_insert_ne; [done|]. intros ->. congruence.
  - rewrite lookup_app_l; [done|]. by eapply lookup_lt_Some.
Qed.

Lemma fold_upsert_untouched (es C : list Blueprint.t) (b : Blueprint.t)
    (i : nat) :
  C !! i = Some b →
  (∀ e, e ∈ es → Blueprint.Name e ≠ Blueprint.Name b) →
  foldl upsert C es !! i = Some b.
Proof.
  revert C. induction es as [|e es IH]; intros C Hi Hno; simpl; [done|].
  apply IH.
  - apply upsert_untouched; [done|]. apply Hno, list_elem_of_here.
  - intros e' He'. apply Hno. by apply list_elem_of_further.
Qed.

Lemma upsert_elem_of (C : list Blueprint.t) (E x : Blueprint.t) :
  x ∈ upsert C E → x = E ∨ x ∈ C.
Proof.
  unfold upsert. destruct (list_find (named E) C) as [[j y]|].
  - intros [k Hk]%list_elem_of_lookup.
    destruct (decide (j = k)) as [->|Hne].
    + assert (k < length C) as Hlt.
      { rewrite <- (length_insert C k E). by eapply lookup_lt_Some. }
      rewrite list_lookup_insert_eq in Hk by done. left. congruence.
    + rewrite list_lookup_insert_ne in Hk by done.
      right. apply list_elem_of_lookup. eauto.
  - intros [?|Hx%list_elem_of_singleton]%elem_of_app; eauto.
Qed.

Lemma fold_upsert_elem_of (es C : list Blueprint.t) (x : Blueprint.t) :
  x ∈ foldl upsert C es → x ∈ C ∨ x ∈ es.
Proof.
  revert C. induction es as [|e es IH]; intros C; simpl; [eauto|].
  intros [[->|?]%upsert_elem_of | ?]%IH.
  - right. apply list_elem_of_here.
  - by left.
  - right. by apply list_elem_of_further.
Qed.

Lemma list_find_same_names (D D' : list Blueprint.t) (n : string) (i : nat)
    (x : Blueprint.t) :
  Blueprint.Name <$> D' = Blueprint.Name <$> D →
  list_find (λ b, Blueprint.Name b = n) D = Some (i, x) →
  ∃ x', list_find (λ b, Blueprint.Name b = n) D' = Some (i, x').
Proof.
  intros Hnames (Hi & Hname & Hbefore)%list_find_Some.
  assert ((Blueprint.Name <$> D') !! i = Some n) as Hi'.
  { rewrite Hnames, list_lookup_fmap, Hi. simpl. by rewrite Hname. }
  rewrite list_lookup_fmap in Hi'.
  destruct (D' !! i) as [x'|] eqn:Hx'; [|done].
  injection Hi' as Hname'. exists x'.
  apply list_find_Some. split_and!; [done..|].
  intros j y Hj Hlt Hy.
  assert ((Blueprint.Name <$> D) !! j = Some n) as Hn.
  { rewrite <- Hnames, list_lookup_fmap, Hj. simpl. by rewrite Hy. }
  rewrite list_lookup_fmap in Hn.
  destruct (D !! j) as [y0|] eqn:Hy0; [|done].
  injection Hn as Hn. by apply (Hbefore j y0).
Qed.

(** A catalog [D] in which every name of [es] already gives the last
    entry of [es] that has it is where the upserts of [es] end, from any
    catalog that has the names of [D] and differs from it only where
    those names are first found. *)
Lemma fold_upsert_settles (es D D' : list Blueprint.t) :
  Blueprint.Name <$> D' = Blueprint.Name <$> D →
  (∀ e, e ∈ es →
     lookupName (Blueprint.Name e) D = lastNamed (Blueprint.Name e) es) →
  (∀ j, D' !! j = D !! j
        ∨ ∃ e x, e ∈ es ∧ list_find (named e) D = Some (j, x)) →
  foldl upsert D' es = D.
Proof.
  revert D'. induction es as [|e es IH]; intros D' Hnames Hlast Hagree.
  { simpl. apply list_eq. intros j.
    destruct (Hagree j) as [?|(e0 & ? & Hin & _)]; [done|].
    by apply not_elem_of_nil in Hin. }
  simpl.
  pose proof (Hlast e (list_elem_of_here _ _)) as He.
  destruct (list_find (named e) D) as [[i y]|] eqn:HfindD.
  2:{ destruct (lastNamed_is_Some (e :: es) e (list_elem_of_here _ _))
        as [? Hsome].
      rewrite <- He in Hsome. unfold lookupName in Hsome.
      by rewrite HfindD in Hsome. }
  destruct (list_find_same_names D D' _ i y Hnames HfindD)
    as [x' HfindD'].
  pose proof HfindD as (HDi & _ & _)%list_find_Some.
  pose proof HfindD' as (HDi' & Hname' & _)%list_find_Some.
  rewrite (upsert_found _ _ _ _ HfindD').
  apply IH.
  - rewrite list_fmap_insert, list_insert_id; [done|].
    rewrite list_lookup_fmap, HDi'. simpl. by rewrite Hname'.
  - intros e' He'. rewrite Hlast by by apply list_elem_of_further.
    rewrite lastNamed_cons.
    by destruct (lastNamed_is_Some es e' He') as [? ->].
  - intros j. destruct (decide (i = j)) as [<-|Hne].
    + destruct (lastNamed (Blueprint.Name e) es) as [e1|] eqn:Hl1.
      * right. apply lastNamed_Some in Hl1 as [Hin Hname1].
        exists e1, y. split; [done|]. by rewrite Hname1.
      * left. rewrite list_lookup_insert_eq by by eapply lookup_lt_Some.
        rewrite lastNamed_cons, Hl1, decide_True in He by done.
        unfold lookupName in He. rewrite HfindD in He.
        injection He as ->. done.
    + rewrite list_lookup_insert_ne by done.
      destruct (Hagree j) as [?|(e0 & x0 & Hin & Hf0)]; [by left|].
      apply elem_of_cons in Hin as [->|Hin].
      * rewrite HfindD in Hf0. by injection Hf0 as ? ?.
      * right. eauto.
Qed.

Lemma fold_upsert_idempotent (es C : list Blueprint.t) :
  foldl upsert (foldl upsert C es) es = foldl upsert C es.
Proof.
  apply fold_upsert_settles; [done| |by left].
  intros e Hin. rewrite fold_upsert_lookup.
  by destruct (lastNamed_is_Some es e Hin) as [? ->].
Qed.

(** The catalog a completed loop leaves: the one it was given when no
    asset gave an entry, and otherwise a non-nil one holding the
    upserts. *)
Lemma reconcile_shape (w : World) (repo tag : string) (db db' : Database.t)
    (assets : slice Asset.t) :
  reconcile w repo tag db assets = Ret db' →
  db' = match assetEntries w repo tag assets with
        | [] => db
        | es =>
            Database.mk
              (Some (foldl upsert (elems (Database.Blueprints db)) es))
        end.
Proof.
  intros ->%reconcile_entries.
  destruct (assetEntries w repo tag assets) as [|e es]; [done|].
  simpl. generalize (upsert (elems (Database.Blueprints db)) e) as C.
  induction es as [|e' es IH]; intros C; [done|]. simpl. apply IH.
Qed.

(** X11: The loop keeps the order of the catalog: the names it held are,
    in their places, the first names of the catalog a completed loop
    leaves, and that catalog is longer by at most one entry for each
    archive asset. *)
Theorem reconcile_order_stable (w : World) (repo tag : string)
    (db db' : Database.t) (assets : slice Asset.t) :
  reconcile w repo tag db assets = Ret db' →
  let before := elems (Database.Blueprints db) in
  let after := elems (Database.Blueprints db') in
  (Blueprint.Name <$> before) `prefix_of` (Blueprint.Name <$> after)
  ∧ length before ≤ length after
    ≤ length before
      + length (filter (λ a, HasSuffix (Asset.Name a) ".zip" = true)
                  (elems assets)).
Proof.
  intros Hloop. cbv zeta.
  rewrite (reconcile_elems _ _ _ _ _ _ Hloop). split.
  - apply fold_upsert_names_prefix.
  - pose proof (fold_upsert_length (assetEntries w repo tag assets)
                  (elems (Database.Blueprints db))).
    pose proof (assetEntries_length w repo tag assets). lia.
Qed.

Lemma reconcile_order_stable_witness :
  let before := [Blueprint.mk "beta" "0.1" "r" "q" "v" "e" None] in
  let after :=
    [Blueprint.mk "beta" "0.1" "r" "q" "v" "e" None;
     Blueprint.mk "foo" "1.2.3" "github.com/o/r" "blueprints/foo" "U1"
       "foo blueprint" None] in
  (Blueprint.Name <$> before) `prefix_of` (Blueprint.Name <$> after)
  ∧ length before ≤ length after
    ≤ length before
      + length (filter (λ a, HasSuffix (Asset.Name a) ".zip" = true)
                  (elems (ghRelease.Assets example_release))).
Proof.
  intros before after.
  apply (reconcile_order_stable example_world "o/r" "v1.2.3"
           (Database.mk (Some before)) (Database.mk (Some after))
           (ghRelease.Assets example_release)).
  by vm_compute.
Defined.

(** X12: The loop keeps names unique: a catalog with one entry for a
    name is left by a completed loop with one entry for a name, whatever
    the release holds. *)
Theorem reconcile_unique_names (w : World) (repo tag : string)
    (db db' : Database.t) (assets : slice Asset.t) :
  unique_names (elems (Database.Blueprints db)) →
  reconcile w repo tag db assets = Ret db' →
  unique_names (elems (Database.Blueprints db')).
Proof.
  intros Hnd Hloop. rewrite (reconcile_elems _ _ _ _ _ _ Hloop).
  by apply fold_upsert_unique.
Qed.

Lemma reconcile_unique_names_witness :
  unique_names
    [Blueprint.mk "foo" "1.2.3" "github.com/o/r" "blueprints/foo" "U1"
       "foo blueprint" None;
     Blueprint.mk "beta" "0.1" "r" "q" "v" "e" None].
Proof.
  apply (reconcile_unique_names example_world "o/r" "v1.2.3"
           (Database.mk
              (Some [Blueprint.mk "foo" "0.9" "r" "p" "u" "d" None;
                     Blueprint.mk "beta" "0.1" "r" "q" "v" "e" None]))
           (Database.mk
              (Some [Blueprint.mk "foo" "1.2.3" "github.com/o/r"
                       "blueprints/foo" "U1" "foo blueprint" None;
                     Blueprint.mk "beta" "0.1" "r" "q" "v" "e" None]))
           (ghRelease.Assets example_release)).
  - unfold unique_names.
    apply (bool_decide_unpack (NoDup ["foo"; "beta"])).
    vm_compute. exact I.
  - by vm_compute.
Defined.

(** X13: When several assets of a release give entries of one name, the
    last of them in the asset list is the one the catalog of a completed
    loop holds under that name; a name that no asset gives is found as
    it was before. *)
Theorem reconcile_last_wins (w : World) (repo tag : string)
    (db db' : Database.t) (assets : slice Asset.t) (n : string) :
  reconcile w repo tag db assets = Ret db' →
  lookupName n (elems (Database.Blueprints db'))
  = match lastNamed n (assetEntries w repo tag assets) with
    | Some e => Some e
    | None => lookupName n (elems (Database.Blueprints db))
    end.
Proof.
  intros Hloop. rewrite (reconcile_elems _ _ _ _ _ _ Hloop).
  apply fold_upsert_lookup.
Qed.

Lemma reconcile_last_wins_witness :
  lookupName "foo"
    [Blueprint.mk "foo" "1.2.3" "github.com/o/r" "blueprints/foo" "U1"
       "foo blueprint" None]
  = match lastNamed "foo"
            (assetEntries example_world "o/r" "v1.2.3"
               (ghRelease.Assets example_release)) with
    | Some e => Some e
    | None =>
        lookupName "foo" [Blueprint.mk "foo" "0.9" "r" "p" "u" "d" None]
    end.
Proof.
  apply (reconcile_last_wins example_world "o/r" "v1.2.3"
           (Database.mk (Some [Blueprint.mk "foo" "0.9" "r" "p" "u" "d" None]))
           (Database.mk
              (Some [Blueprint.mk "foo" "1.2.3" "github.com/o/r"
                       "blueprints/foo" "U1" "foo blueprint" None]))
           (ghRelease.Assets example_release) "foo").
  by vm_compute.
Defined.

(** X14: An entry whose name no asset of the release gives stays at its
    position, unchanged, through a completed loop. *)
Theorem reconcile_untouched (w : World) (repo tag : string)
    (db db' : Database.t) (assets : slice Asset.t) (i : nat)
    (b : Blueprint.t) :
  reconcile w repo tag db assets = Ret db' →
  elems (Database.Blueprints db) !! i = Some b →
  (∀ e, e ∈ assetEntries w repo tag assets →
        Blueprint.Name e ≠ Blueprint.Name b) →
  elems (Database.Blueprints db') !! i = Some b.
Proof.
  intros Hloop Hi Hno. rewrite (reconcile_elems _ _ _ _ _ _ Hloop).
  by apply fold_upsert_untouched.
Qed.

Lemma reconcile_untouched_witness :
  elems
    (Database.Blueprints
       (Database.mk
          (Some [Blueprint.mk "foo" "1.2.3" "github.com/o/r"
                   "blueprints/foo" "U1" "foo blueprint" None;
                 Blueprint.mk "beta" "0.1" "r" "q" "v" "e" None]))) !! 1
  = Some (Blueprint.mk "beta" "0.1" "r" "q" "v" "e" None).
Proof.
  apply (reconcile_untouched example_world "o/r" "v1.2.3"
           (Database.mk
              (Some [Blueprint.mk "foo" "0.9" "r" "p" "u" "d" None;
                     Blueprint.mk "beta" "0.1" "r" "q" "v" "e" None]))
           _ (ghRelease.Assets example_release)).
  - by vm_compute.
  - reflexivity.
  - intros e He. vm_compute in He.
    apply list_elem_of_singleton in He as ->. simpl. discriminate.
Defined.

(** X15: The loop invents nothing and drops nothing: every entry of the
    catalog a completed loop leaves was in the catalog or is the entry of
    an asset of the release, and every name of the catalog is still in
    it. *)
Theorem reconcile_entries_origin (w : World) (repo tag : string)
    (db db' : Database.t) (assets : slice Asset.t) :
  reconcile w repo tag db assets = Ret db' →
  (∀ x,
     x ∈ elems (Database.Blueprints db') →
     x ∈ elems (Database.Blueprints db)
     ∨ ∃ a, a ∈ elems assets ∧ assetEntry w repo tag a = Ret (Some x))
  ∧ ∀ n,
      n ∈ Blueprint.Name <$> elems (Database.Blueprints db) →
      n ∈ Blueprint.Name <$> elems (Database.Blueprints db').
Proof.
  intros Hloop. rewrite (reconcile_elems _ _ _ _ _ _ Hloop). split.
  - intros x [?|Hx]%fold_upsert_elem_of; [by left|]. right.
    unfold assetEntries in Hx.
    apply list_elem_of_omap in Hx as (a & Ha & Hx).
    exists a. split; [done|].
    by destruct (assetEntry w repo tag a) as [[e|]|]; simplify_eq.
  - intros n Hn.
    destruct (fold_upsert_names_prefix (assetEntries w repo tag assets)
                (elems (Database.Blueprints db))) as [k ->].
    apply elem_of_app. by left.
Qed.

Lemma reconcile_entries_origin_witness :
  "beta"
  ∈ Blueprint.Name
      <$> elems
            (Database.Blueprints
               (Database.mk
                  (Some [Blueprint.mk "beta" "0.1" "r" "q" "v" "e" None;
                         Blueprint.mk "foo" "1.2.3" "github.com/o/r"
                           "blueprints/foo" "U1" "foo blueprint" None]))).
Proof.
  apply (reconcile_entries_origin example_world "o/r" "v1.2.3"
           (Database.mk
              (Some [Blueprint.mk "beta" "0.1" "r" "q" "v" "e" None]))
           _ (ghRelease.Assets example_release)).
  - by vm_compute.
  - simpl. apply list_elem_of_here.
Defined.

(** X16: Running the loop again over the same release, with the same
    answers from the repository, changes nothing: where a first pass
    completes, a second one completes too and leaves the catalog the
    first one left. *)
Theorem reconcile_idempotent (w : World) (repo tag : string)
    (db db' : Database.t) (assets : slice Asset.t) :
  reconcile w repo tag db assets = Ret db' →
  reconcile w repo tag db' assets = Ret db'.
Proof.
  intros Hloop.
  pose proof Hloop as [_ Hno]%reconcileAssets_Ret.
  destruct (reconcileAssets_completes w repo tag (elems assets) db' Hno)
    as [db'' Hagain].
  fold (reconcile w repo tag db' assets) in Hagain.
  rewrite Hagain. f_equal.
  rewrite (reconcile_shape _ _ _ _ _ _ Hagain).
  pose proof (reconcile_elems _ _ _ _ _ _ Hloop) as Helems.
  pose proof (reconcile_shape _ _ _ _ _ _ Hloop) as Hshape.
  destruct (assetEntries w repo tag assets) as [|e es]; [done|].
  rewrite Helems, fold_upsert_idempotent. by rewrite Hshape.
Qed.

Lemma reconcile_idempotent_witness :
  reconcile example_world "o/r" "v1.2.3"
    (Database.mk
       (Some [Blueprint.mk "foo" "1.2.3" "github.com/o/r" "blueprints/foo"
                "U1" "foo blueprint" None]))
    (ghRelease.Assets example_release)
  = Ret (Database.mk
           (Some [Blueprint.mk "foo" "1.2.3" "github.com/o/r"
                    "blueprints/foo" "U1" "foo blueprint" None])).
Proof.
  apply (reconcile_idempotent example_world "o/r" "v1.2.3"
           (Database.mk (Some []))).
  by vm_compute.
Defined.



(** ** The fields of an entry *)

Lemma string_app_empty (s t : string) : s +:+ t = "" → s = "" ∧ t = "".
Proof.
  destruct s as [|c s]; intros H.
  - split; [done | exact H].
  - change (String c (s +:+ t) = "") in H. discriminate H.
Qed.

Lemma HasPrefix_inv (s prefix : string) :
  HasPrefix s prefix = true →
  s = prefix
      +:+ String.substring (String.length prefix)
            (String.length s - String.length prefix) s.
Proof.
  unfold HasPrefix. intros [Hlen Heq%bool_decide_eq_true]%andb_true_iff.
  apply Nat.leb_le in Hlen.
  rewrite (substring_split s (String.length prefix)) at 1 by lia.
  by rewrite Heq.
Qed.

Lemma TrimPrefix_empty (s : string) : TrimPrefix s "v" = "" ↔ s = "" ∨ s = "v".
Proof.
  split.
  - unfold TrimPrefix. destruct (HasPrefix s "v") eqn:Hv; [|by left].
    intros Hrest. right. rewrite (HasPrefix_inv _ _ Hv). by rewrite Hrest.
  - by intros [-> | ->].
Qed.

Lemma TrimSuffix_empty (s suffix : string) :
  HasSuffix s suffix = true → TrimSuffix s suffix = "" → s = suffix.
Proof.
  intros Hsuf. unfold TrimSuffix. rewrite Hsuf. intros Hrest.
  rewrite (HasSuffix_inv _ _ Hsuf). by rewrite Hrest.
Qed.

(** X18: The manifest has no say in where an entry points: its
    repository, path and download URL come from the configuration and the
    asset alone; and its description is never empty. *)
Theorem entry_fixed_fields (w : World) (repo tag : string) (a : Asset.t)
    (e : Blueprint.t) :
  assetEntry w repo tag a = Ret (Some e) →
  Blueprint.Repo e = "github.com/" +:+ repo
  ∧ Blueprint.Path e = path_Join ["blueprints"; blueprintID a]
  ∧ Blueprint.DownloadURL e = Asset.BrowserDownloadURL a
  ∧ Blueprint.Description e ≠ "".
Proof.
  intros (_ & man & _ & ->)%assetEntry_Some_inv.
  simpl. split_and!; [done..|].
  case_bool_decide as Hd; [|done].
  intros [_ [=]]%string_app_empty.
Qed.

Lemma entry_fixed_fields_witness :
  let e := Blueprint.mk "foo" "1.2.3" "github.com/o/r" "blueprints/foo" "U1"
             "foo blueprint" None in
  Blueprint.Repo e = "github.com/" +:+ "o/r"
  ∧ Blueprint.Path e
    = path_Join ["blueprints"; blueprintID (Asset.mk "foo.zip" "U1")]
  ∧ Blueprint.DownloadURL e
    = Asset.BrowserDownloadURL (Asset.mk "foo.zip" "U1")
  ∧ Blueprint.Description e ≠ "".
Proof.
  intros e.
  apply (entry_fixed_fields example_world "o/r" "v1.2.3"
           (Asset.mk "foo.zip" "U1") e).
  by vm_compute.
Defined.

(** X19: An entry comes out without a name only for an asset called just
    [.zip] whose manifest names nothing, and without a version only when
    the manifest gives none and the tag is [v] alone (or empty, which
    [main] refuses). *)
Theorem entry_empty_name_version (w : World) (repo tag : string)
    (a : Asset.t) (e : Blueprint.t) :
  assetEntry w repo tag a = Ret (Some e) →
  ∃ man,
    resolveManifest w repo tag (blueprintID a) = Ret man
    ∧ (Blueprint.Name e = ""
       ↔ bpManifest.Name man = "" ∧ Asset.Name a = ".zip")
    ∧ (Blueprint.Version e = ""
       ↔ bpManifest.Version man = "" ∧ (tag = "" ∨ tag = "v")).
Proof.
  intros (Hzip & man & Hman & ->)%assetEntry_Some_inv.
  exists man. split; [done|]. simpl. split.
  - case_bool_decide as Hn.
    + split.
      * intros Hid. split; [done|]. by apply TrimSuffix_empty.
      * intros [_ Ha]. unfold blueprintID. by rewrite Ha.
    + split; [done | by intros [? _]].
  - case_bool_decide as Hv.
    + rewrite TrimPrefix_empty. split; [by intros ? | by intros [_ ?]].
    + split; [done | by intros [? _]].
Qed.

Lemma entry_empty_name_version_witness :
  ∃ man,
    resolveManifest example_world "o/r" "v1.2.3"
      (blueprintID (Asset.mk "foo.zip" "U1")) = Ret man
    ∧ (Blueprint.Name
         (Blueprint.mk "foo" "1.2.3" "github.com/o/r" "blueprints/foo" "U1"
            "foo blueprint" None) = ""
       ↔ bpManifest.Name man = ""
         ∧ Asset.Name (Asset.mk "foo.zip" "U1") = ".zip")
    ∧ (Blueprint.Version
         (Blueprint.mk "foo" "1.2.3" "github.com/o/r" "blueprints/foo" "U1"
            "foo blueprint" None) = ""
       ↔ bpManifest.Version man = "" ∧ ("v1.2.3" = "" ∨ "v1.2.3" = "v")).
Proof.
  apply (entry_empty_name_version example_world "o/r" "v1.2.3"
           (Asset.mk "foo.zip" "U1")).
  by vm_compute.
Defined.

(** ** Paths of plain identifiers *)

Lemma split_slash_plain (s : string) :
  contains_slash s = false → split_slash s = [s].
Proof.
  induction s as [|c s IH]; simpl; [done|].
  intros [Hc Hs]%orb_false_iff. rewrite Hc. by rewrite IH.
Qed.

Lemma split_slash_app (a rest : string) :
  contains_slash a = false →
  split_slash (a +:+ "/" +:+ rest) = a :: split_slash rest.
Proof.
  induction a as [|c a IH]; [done|].
  intros [Hc Hs]%orb_false_iff.
  change (String c a +:+ "/" +:+ rest) with (String c (a +:+ "/" +:+ rest)).
  cbn [split_slash]. rewrite Hc. by rewrite IH.
Qed.

Lemma clean_step_plain (rooted : bool) (out : list string) (id : string) :
  plain_id id → clean_step rooted out id = id :: out.
Proof.
  intros (H1 & H2 & H3 & _). unfold clean_step.
  by rewrite !bool_decide_eq_false_2 by done.
Qed.

Lemma path_Join_blueprints (id : string) (rest : list string) :
  plain_id id → Forall plain_id rest →
  path_Join ("blueprints" :: id :: rest)
  = strings_Join ("blueprints" :: id :: rest) "/".
Proof.
  intros Hid Hrest.
  assert (∀ l, Forall plain_id l → ∀ out,
            foldl (clean_step false) out l = rev l ++ out) as Hfold.
  { induction l as [|s l IH]; intros Hl out; [done|].
    apply Forall_cons in Hl as [Hs Hl]. simpl.
    rewrite clean_step_plain, IH by done. by rewrite <- app_assoc. }
  assert (∀ l, Forall plain_id l → l ≠ [] →
            split_slash (strings_Join l "/") = l) as Hsplit.
  { induction l as [|s l IH]; intros Hl Hne; [done|].
    apply Forall_cons in Hl as [Hs Hl].
    destruct l as [|s' l].
    - simpl. apply split_slash_plain, Hs.
    - change (strings_Join (s :: s' :: l) "/")
        with (s +:+ "/" +:+ strings_Join (s' :: l) "/").
      rewrite split_slash_app by apply Hs. by rewrite IH. }
  assert (plain_id "blueprints") as Hbp by (by split_and!).
  assert (Forall plain_id ("blueprints" :: id :: rest)) as Hall.
  { apply Forall_cons. split; [done|]. apply Forall_cons. by split. }
  change (path_Join ("blueprints" :: id :: rest))
    with (path_Clean (strings_Join ("blueprints" :: id :: rest) "/")).
  change (strings_Join ("blueprints" :: id :: rest) "/")
    with (String "b" ("lueprints" +:+ "/"
                      +:+ strings_Join (id :: rest) "/")) at 1.
  unfold path_Clean. cbn [Ascii.eqb Bool.eqb].
  change (String "b" ("lueprints" +:+ "/" +:+ strings_Join (id :: rest) "/"))
    with (strings_Join ("blueprints" :: id :: rest) "/").
  rewrite (Hsplit _ Hall) by done.
  rewrite (Hfold _ Hall), app_nil_r, rev_involutive. done.
Qed.

(** X20: For an identifier that is one plain path element (not empty, no
    slash, neither [.] nor [..]) the path of the entry is
    [blueprints/<id>] and the manifest is looked for at
    [blueprints/<id>/manifest.yaml/] under the repository and tag. *)
Theorem plain_id_paths (repo tag id : string) :
  plain_id id →
  path_Join ["blueprints"; id] = "blueprints/" +:+ id
  ∧ manifestURL repo tag id
    = "https://raw.githubusercontent.com/" +:+ repo +:+ "/" +:+ tag
      +:+ "/blueprints/" +:+ id +:+ "/manifest.yaml/".
Proof.
  intros Hid. split.
  - rewrite (path_Join_blueprints id [] Hid (Forall_nil_2 _)).
    reflexivity.
  - assert (Forall plain_id ["manifest.yaml"]) as Hfile.
    { apply Forall_cons. split; [by split_and! | constructor]. }
    unfold manifestURL.
    rewrite (path_Join_blueprints id ["manifest.yaml"] Hid Hfile).
    change (strings_Join ["blueprints"; id; "manifest.yaml"] "/")
      with ("blueprints/" +:+ id +:+ "/manifest.yaml").
    rewrite !string_app_assoc. reflexivity.
Qed.

Lemma plain_id_paths_witness :
  path_Join ["blueprints"; "foo"] = "blueprints/" +:+ "foo"
  ∧ manifestURL "o/r" "v1.2.3" "foo"
    = "https://raw.githubusercontent.com/" +:+ "o/r" +:+ "/" +:+ "v1.2.3"
      +:+ "/blueprints/" +:+ "foo" +:+ "/manifest.yaml/".
Proof.
  apply plain_id_paths. by split_and!.
Defined.

(** ** What a run reports *)

(** X8: A run that ends on an error reports the first stage that
    failed, with the error of that stage: the catalog, then the release
    lookup (when its request could be built), then the decoding of the
    release. *)
Theorem main_first_failure (w : World) (err : error) :
  (Run.line (main w) = LoadRegistry err
   ↔ Getenv w "TAG" ≠ "" ∧ Getenv w "BLUEPRINTS_REPO" ≠ ""
     ∧ snd (loadDB w "registry.json") = Some err)
  ∧ (Run.line (main w) = Release err
     ↔ Getenv w "TAG" ≠ "" ∧ Getenv w "BLUEPRINTS_REPO" ≠ ""
       ∧ snd (loadDB w "registry.json") = None
       ∧ ∃ b,
           httpGet w
             (relURL (Getenv w "BLUEPRINTS_REPO") (Getenv w "TAG"))
           = Ret (b, Some err))
  ∧ (Run.line (main w) = DecodeRelease err
     ↔ Getenv w "TAG" ≠ "" ∧ Getenv w "BLUEPRINTS_REPO" ≠ ""
       ∧ snd (loadDB w "registry.json") = None
       ∧ ∃ rb,
           httpGet w
             (relURL (Getenv w "BLUEPRINTS_REPO") (Getenv w "TAG"))
           = Ret (rb, None)
           ∧ snd (json_Unmarshal_ghRelease w rb (ghRelease.mk "" None))
             = Some err).
Proof.
  pose proof (main_cases w) as Hcases. cbv zeta in Hcases.
  destruct Hcases as [[Hmissing ->] | (Htag & Hrepo & Hrest)].
  { simpl. split_and!; (split; [done|]); intros (? & ? & _);
      by destruct Hmissing. }
  destruct Hrest as [(e & Hload & ->) | (db & Hload & Hrest)].
  { rewrite Hload. simpl. split_and!.
    - split; [by intros [= ->] | by intros (_ & _ & [= ->])].
    - split; [done | by intros (_ & _ & [=] & _)].
    - split; [done | by intros (_ & _ & [=] & _)]. }
  rewrite Hload. cbn [fst snd].
  destruct Hrest as [(Hget & ->) | [(b & e & Hget & ->)
    | (rb & Hget & Hrest)]].
  { rewrite Hget. simpl. split_and!.
    - split; [done | by intros (_ & _ & [=])].
    - split; [done | by intros (_ & _ & _ & ? & [=])].
    - split; [done | by intros (_ & _ & _ & ? & [=] & _)]. }
  { rewrite Hget. simpl. split_and!.
    - split; [done | by intros (_ & _ & [=])].
    - split; [intros [= ->]; eauto | by intros (_ & _ & _ & ? & [= _ ->])].
    - split; [done | by intros (_ & _ & _ & ? & [=] & _)]. }
  rewrite Hget.
  destruct Hrest as [(e & Hdec & ->) | (rel & Hdec & Hrest)].
  { simpl. split_and!.
    - split; [done | by intros (_ & _ & [=])].
    - split; [done | by intros (_ & _ & _ & ? & [=])].
    - split.
      + intros [= ->]. split_and!; [done..|]. by exists rb.
      + intros (_ & _ & _ & rb' & [= <-] & Herr).
        rewrite Hdec in Herr. by injection Herr as ->. }
  assert (∀ L, (L = Panicked ∨ (∃ e, L = SaveRegistry e)
                ∨ ∃ t n c, L = Updated t n c) →
          (L = LoadRegistry err
           ↔ Getenv w "TAG" ≠ "" ∧ Getenv w "BLUEPRINTS_REPO" ≠ ""
             ∧ None = Some err)
          ∧ (L = Release err
             ↔ Getenv w "TAG" ≠ "" ∧ Getenv w "BLUEPRINTS_REPO" ≠ ""
               ∧ @None error = None
               ∧ ∃ b, Ret (rb, @None error) = Ret (b, Some err))
          ∧ (L = DecodeRelease err
             ↔ Getenv w "TAG" ≠ "" ∧ Getenv w "BLUEPRINTS_REPO" ≠ ""
               ∧ @None error = None
               ∧ ∃ rb0,
                   Ret (rb, @None error) = Ret (rb0, None)
                   ∧ snd (json_Unmarshal_ghRelease w rb0
                            (ghRelease.mk "" None)) = Some err)) as Hother.
  { intros L HL. split_and!.
    - split; [|by intros (_ & _ & [=])].
      intros ->. by destruct HL as [[=] | [[? [=]] | (? & ? & ? & [=])]].
    - split; [|by intros (_ & _ & _ & ? & [=])].
      intros ->. by destruct HL as [[=] | [[? [=]] | (? & ? & ? & [=])]].
    - split.
      + intros ->. by destruct HL as [[=] | [[? [=]] | (? & ? & ? & [=])]].
      + intros (_ & _ & _ & rb' & [= <-] & Herr).
        rewrite Hdec in Herr. done. }
  destruct Hrest as [(_ & ->) | (db' & file & _ & _ & [(e & _ & ->)
    | (_ & ->)])]; simpl; apply Hother; eauto 7.
Qed.

(** X9: The count in the summary of a successful run is the length of
    the catalog that was saved: at least the number of entries that were
    loaded, and at most that number plus one for each archive asset of
    the release; the tag in it is the configured one. *)
Theorem main_summary_count (w : World) (tag now : string) (n : nat) :
  Run.line (main w) = Updated tag now n →
  tag = Getenv w "TAG" ∧ now = Now w
  ∧ ∃ db rb rel,
      loadDB w "registry.json" = (db, None)
      ∧ httpGet w (relURL (Getenv w "BLUEPRINTS_REPO") tag)
        = Ret (rb, None)
      ∧ json_Unmarshal_ghRelease w rb (ghRelease.mk "" None) = (rel, None)
      ∧ length (elems (Database.Blueprints db)) ≤ n
        ≤ length (elems (Database.Blueprints db))
          + length (filter (λ a, HasSuffix (Asset.Name a) ".zip" = true)
                      (elems (ghRelease.Assets rel))).
Proof.
  pose proof (main_cases w) as Hcases. cbv zeta in Hcases.
  destruct Hcases as [[_ ->] | (_ & _ & [(? & _ & ->)
    | (db & Hload & [(_ & ->) | [(? & ? & _ & ->)
    | (rb & Hget & [(? & _ & ->) | (rel & Hdec & [(_ & ->)
    | (db' & file & Hloop & _ & [(? & _ & ->) | (_ & ->)])])])]])])];
    simpl; try done.
  pose proof (fold_upsert_length
                (assetEntries w (Getenv w "BLUEPRINTS_REPO")
                   (Getenv w "TAG") (ghRelease.Assets rel))
                (elems (Database.Blueprints db))) as Hlen.
  rewrite <- (reconcile_elems _ _ _ _ _ _ Hloop) in Hlen.
  pose proof (assetEntries_length w (Getenv w "BLUEPRINTS_REPO")
                (Getenv w "TAG") (ghRelease.Assets rel)) as Hzip.
  intros [= <- <- <-]. split; [done|]. split; [done|].
  exists db, rb, rel. split; [done|]. split; [done|]. split; [done|].
  lia.
Qed.

Lemma main_summary_count_witness :
  "v1.2.3" = Getenv example_world "TAG"
  ∧ "2025-01-01T00:00:00Z" = Now example_world
  ∧ ∃ db rb rel,
      loadDB example_world "registry.json" = (db, None)
      ∧ httpGet example_world
          (relURL (Getenv example_world "BLUEPRINTS_REPO") "v1.2.3")
        = Ret (rb, None)
      ∧ json_Unmarshal_ghRelease example_world rb (ghRelease.mk "" None)
        = (rel, None)
      ∧ length (elems (Database.Blueprints db)) ≤ 1
        ≤ length (elems (Database.Blueprints db))
          + length (filter (λ a, HasSuffix (Asset.Name a) ".zip" = true)
                      (elems (ghRelease.Assets rel))).
Proof.
  apply (main_summary_count example_world "v1.2.3" "2025-01-01T00:00:00Z" 1).
  by vm_compute.
Defined.
